(** * Player reconciliation engine (player_reconcile.py)

    A shallow embedding of the reconciliation pass of [PlayerReconciler]:
    [reconcile_players], [_check_player_updates], [_prepare_player_insert],
    of what it hands on - [generate_sql_script] with [_escape_sql] and
    [write_error_log] - and of [get_db_connection].

    Conventions of the embedding.
    - A pandas cell or a Python value read from a row is a [pyval].  Numeric
      cells are represented by their integer value: pandas stores a jersey
      number or a foreign key as an integral float as soon as the column has
      a hole, and [==], truthiness and [int()] agree on [12] and [12.0];
      [str] prints such a cell as the integer.  The two infinite floats,
      which the CSV reader makes of the fields [inf] and [-inf], are [PInf];
      a finite float with a fractional part has no representation here.
    - Text is a [string] of ASCII characters.  [str.strip] removes the
      characters for which [str.isspace] holds and [str.upper] maps [a-z] to
      [A-Z]; characters outside ASCII are left alone.
    - [self.stats], [self.errors] and [self.warnings] are the mutable context
      of a run; they are threaded explicitly as a [ctx]. *)

From Stdlib Require Import ZArith String Ascii List Bool DecimalString DecimalPos.
From stdpp Require Import base option list strings gmap.

Local Open Scope Z_scope.
Local Open Scope string_scope.

(** ** Python values and text *)

Inductive pyval : Type :=
  | PNone
  | PNaN
  | PStr (s : string)
  | PInt (z : Z)
  | PInf (negative : bool).

#[global] Instance pyval_eq_dec : EqDecision pyval.
Proof. solve_decision. Defined.

Module Py.

(** [str.isspace] on one ASCII character: TAB, LF, VT, FF, CR, the four
    separators FS, GS, RS, US, and the space. *)
Definition isspace (c : ascii) : bool :=
  let n := nat_of_ascii c in
  ((9 <=? n) && (n <=? 13) || (28 <=? n) && (n <=? 32))%nat.

Fixpoint lstrip (s : string) : string :=
  match s with
  | EmptyString => EmptyString
  | String c s' => if isspace c then lstrip s' else s
  end.

(** Drop trailing whitespace: a character is kept when it is not
    whitespace or when something is kept after it. *)
Fixpoint rstrip (s : string) : string :=
  match s with
  | EmptyString => EmptyString
  | String c s' =>
      match rstrip s' with
      | EmptyString => if isspace c then EmptyString else String c EmptyString
      | r => String c r
      end
  end.

(** [s.strip()] *)
Definition strip (s : string) : string := rstrip (lstrip s).

Definition upper_char (c : ascii) : ascii :=
  let n := nat_of_ascii c in
  if ((97 <=? n) && (n <=? 122))%nat then ascii_of_nat (n - 32) else c.

(** [s.upper()] *)
Fixpoint upper (s : string) : string :=
  match s with
  | EmptyString => EmptyString
  | String c s' => String (upper_char c) (upper s')
  end.

(** [str(v)] *)
Definition str (v : pyval) : string :=
  match v with
  | PNone => "None"
  | PNaN => "nan"
  | PStr s => s
  | PInt z => NilZero.string_of_int (Z.to_int z)
  | PInf negative => if negative then "-inf" else "inf"
  end.

(** [bool(v)]: [None], [0] and the empty string are falsy; NaN and the
    infinities are non-zero floats and therefore truthy. *)
Definition truthy (v : pyval) : bool :=
  match v with
  | PNone => false
  | PNaN => true
  | PStr s => negb (String.eqb s "")
  | PInt z => negb (Z.eqb z 0)
  | PInf _ => true
  end.

(** [pd.isna(v)] on a scalar. *)
Definition isna (v : pyval) : bool :=
  match v with
  | PNone | PNaN => true
  | _ => false
  end.

(** [repr] of a string without quotes or escapes, as the field names
    listed by the insert validation are. *)
Definition repr_str (s : string) : string := "'" +:+ s +:+ "'".

Fixpoint join (sep : string) (l : list string) : string :=
  match l with
  | [] => ""
  | [x] => x
  | x :: l' => x +:+ sep +:+ join sep l'
  end.

(** [repr] of a list of such strings, as an f-string renders it. *)
Definition repr_list (l : list string) : string :=
  "[" +:+ join ", " (map repr_str l) +:+ "]".

(** [s.replace(c, new)] for a one-character pattern. *)
Fixpoint replace_char (c : ascii) (new : string) (s : string) : string :=
  match s with
  | EmptyString => EmptyString
  | String d s' =>
      if Ascii.eqb d c then new +:+ replace_char c new s'
      else String d (replace_char c new s')
  end.

End Py.

(** ** Data model *)

(** One row of the feed: the pandas Series handed out by [iterrows]. *)
Abbreviation series := (gmap string pyval).

(** [row.get(key, default)]: the cell when the column exists. *)
Definition series_get (row : series) (key : string) (dflt : pyval) : pyval :=
  default dflt (row !! key).

(** One entry of [db_lookup]: the columns of the store query that the
    engine reads.  The query always returns them, so they are fields. *)
Record db_row : Type := {
  OID : pyval;
  REALTEAMID : pyval;
  POSITIONID : pyval;
  CURRENT_TEAM : pyval;
  CURRENT_POSITION : pyval
}.

(** The value stored under ['realteamid'] or ['positionid'] in [changes]. *)
Record field_change : Type := {
  old : pyval;
  new : Z;
  old_abbrev : pyval;
  new_abbrev : string
}.

#[global] Instance field_change_eq_dec : EqDecision field_change.
Proof. solve_decision. Defined.

(** The dictionary returned by [_check_player_updates]. *)
Module Update.
Record t : Type := {
  oid : pyval;
  gsis : string;
  name : pyval;
  changes : gmap string field_change
}.
End Update.

(** The dictionary returned by [_prepare_player_insert]. *)
Module Insert.
Record t : Type := {
  gsis : string;
  firstname : string;
  lastname : string;
  realteamid : Z;
  positionid : Z;
  jersey_number : pyval;
  display_name : pyval
}.
End Insert.

(** [self.stats] *)
Module Stats.
Record t : Type := {
  team_updates : Z;
  position_updates : Z;
  new_players : Z;
  errors : Z;
  warnings : Z;
  unchanged : Z
}.

Definition zero : t := Build_t 0 0 0 0 0 0.

(** Sum of the six counters. *)
Definition total (s : t) : Z :=
  team_updates s + position_updates s + new_players s
  + errors s + warnings s + unchanged s.
End Stats.

(** The mutable part of the reconciler: [self.stats], [self.errors],
    [self.warnings]. *)
Record ctx : Type := {
  stats : Stats.t;
  errors : list string;
  warnings : list string
}.

Definition ctx0 : ctx := {| stats := Stats.zero; errors := []; warnings := [] |}.

Definition with_stats (f : Stats.t -> Stats.t) (c : ctx) : ctx :=
  {| stats := f (stats c); errors := errors c; warnings := warnings c |}.

(** [self.stats['team_updates'] += 1] and its five siblings. *)
Definition incr_team_updates : ctx -> ctx :=
  with_stats (fun s => Stats.Build_t
    (Stats.team_updates s + 1) (Stats.position_updates s) (Stats.new_players s)
    (Stats.errors s) (Stats.warnings s) (Stats.unchanged s)).

Definition incr_position_updates : ctx -> ctx :=
  with_stats (fun s => Stats.Build_t
    (Stats.team_updates s) (Stats.position_updates s + 1) (Stats.new_players s)
    (Stats.errors s) (Stats.warnings s) (Stats.unchanged s)).

Definition incr_new_players : ctx -> ctx :=
  with_stats (fun s => Stats.Build_t
    (Stats.team_updates s) (Stats.position_updates s) (Stats.new_players s + 1)
    (Stats.errors s) (Stats.warnings s) (Stats.unchanged s)).

Definition incr_errors : ctx -> ctx :=
  with_stats (fun s => Stats.Build_t
    (Stats.team_updates s) (Stats.position_updates s) (Stats.new_players s)
    (Stats.errors s + 1) (Stats.warnings s) (Stats.unchanged s)).

Definition incr_warnings : ctx -> ctx :=
  with_stats (fun s => Stats.Build_t
    (Stats.team_updates s) (Stats.position_updates s) (Stats.new_players s)
    (Stats.errors s) (Stats.warnings s + 1) (Stats.unchanged s)).

Definition incr_unchanged : ctx -> ctx :=
  with_stats (fun s => Stats.Build_t
    (Stats.team_updates s) (Stats.position_updates s) (Stats.new_players s)
    (Stats.errors s) (Stats.warnings s) (Stats.unchanged s + 1)).

(** [self.warnings.append(msg)] followed by the counter increment. *)
Definition warn (msg : string) (c : ctx) : ctx :=
  incr_warnings
    {| stats := stats c; errors := errors c; warnings := warnings c ++ [msg] |}.

(** [self.errors.append(msg)] followed by the counter increment. *)
Definition fail (msg : string) (c : ctx) : ctx :=
  incr_errors
    {| stats := stats c; errors := errors c ++ [msg]; warnings := warnings c |}.

(** ** The diff of a matched pair *)

(** [new_id != old_id] with [new_id] an [int] taken from a mapping and
    [old_id] a store cell: only an equal number compares equal. *)
Definition differs (new_id : Z) (old_id : pyval) : bool :=
  match old_id with
  | PInt z => negb (Z.eqb new_id z)
  | _ => true
  end.

(** A code as both paths normalise it: [str(cell).strip().upper()], the
    empty string standing in for an absent column. *)
Definition norm_code (row : series) (key : string) : string :=
  Py.upper (Py.strip (Py.str (series_get row key (PStr "")))).

Definition team_warning (row : series) (nfl_team : string) : string :=
  "Unknown team '" +:+ nfl_team +:+ "' for player "
  +:+ Py.strip (Py.str (series_get row "gsis_id" PNone)) +:+ " - "
  +:+ Py.str (series_get row "display_name" PNone).

Definition position_warning (row : series) (nfl_pos : string) : string :=
  "Unknown position '" +:+ nfl_pos +:+ "' for player "
  +:+ Py.strip (Py.str (series_get row "gsis_id" PNone)) +:+ " - "
  +:+ Py.str (series_get row "display_name" PNone).

(** [_check_player_updates]; [full_reconcile] is [self.full_reconcile]. *)
Definition _check_player_updates (full_reconcile : bool)
    (nfl_player : series) (db_player : db_row)
    (team_map pos_map : gmap string Z) (c : ctx) : option Update.t * ctx :=
  let changes : gmap string field_change := ∅ in
  let gsis_id := Py.strip (Py.str (series_get nfl_player "gsis_id" PNone)) in
  let db_oid := OID db_player in
  (* Check team update (always done) *)
  let nfl_team := norm_code nfl_player "latest_team" in
  let '(changes, c) :=
    if negb (String.eqb nfl_team "") then
      match team_map !! nfl_team with
      | Some new_team_id =>
          let old_team_id := REALTEAMID db_player in
          if differs new_team_id old_team_id then
            (<["realteamid" := {| old := old_team_id; new := new_team_id;
                                  old_abbrev := CURRENT_TEAM db_player;
                                  new_abbrev := nfl_team |}]> changes,
             incr_team_updates c)
          else (changes, c)
      | None => (changes, warn (team_warning nfl_player nfl_team) c)
      end
    else (changes, c) in
  (* Check position update (only if full reconcile) *)
  let '(changes, c) :=
    if full_reconcile then
      let nfl_pos := norm_code nfl_player "position" in
      if negb (String.eqb nfl_pos "") then
        match pos_map !! nfl_pos with
        | Some new_pos_id =>
            let old_pos_id := POSITIONID db_player in
            if differs new_pos_id old_pos_id then
              (<["positionid" := {| old := old_pos_id; new := new_pos_id;
                                    old_abbrev := CURRENT_POSITION db_player;
                                    new_abbrev := nfl_pos |}]> changes,
               incr_position_updates c)
            else (changes, c)
        | None => (changes, warn (position_warning nfl_player nfl_pos) c)
        end
      else (changes, c)
    else (changes, c) in
  if decide (changes = ∅) then (None, c)
  else
    (Some {| Update.oid := db_oid;
             Update.gsis := gsis_id;
             Update.name :=
               series_get nfl_player "display_name"
                 (PStr (Py.str (series_get nfl_player "first_name" PNone) +:+ " "
                        +:+ Py.str (series_get nfl_player "last_name" PNone)));
             Update.changes := changes |}, c).

(** ** The insert candidate of an unmatched row *)

(** A required text field as the insert path reads it:
    [str(row.get(key, '')).strip()]. *)
Definition text_field (row : series) (key : string) : string :=
  Py.strip (Py.str (series_get row key (PStr ""))).

(** The [missing] list, built by the five tests in source order. *)
Definition missing_fields (gsis_id first_name last_name nfl_team nfl_pos : string)
    : list string :=
  (if String.eqb gsis_id "" then ["gsis_id"] else [])
  ++ (if String.eqb first_name "" then ["first_name"] else [])
  ++ (if String.eqb last_name "" then ["last_name"] else [])
  ++ (if String.eqb nfl_team "" then ["latest_team"] else [])
  ++ (if String.eqb nfl_pos "" then ["position"] else []).

Definition missing_error (row : series) (missing : list string) : string :=
  "Cannot insert player - missing fields " +:+ Py.repr_list missing +:+ ": "
  +:+ Py.str (series_get row "display_name" PNone).

Definition unknown_team_error (nfl_team gsis_id : string) : string :=
  "Cannot insert player - unknown team '" +:+ nfl_team +:+ "': " +:+ gsis_id.

Definition unknown_position_error (nfl_pos gsis_id : string) : string :=
  "Cannot insert player - unknown position '" +:+ nfl_pos +:+ "': " +:+ gsis_id.

(** The result of [mapping.get(code)] as [if not ...] sees it: an absent
    code gives [None] and an identifier [0] is falsy as well. *)
Definition usable_id (o : option Z) : option Z :=
  match o with
  | Some z => if Z.eqb z 0 then None else Some z
  | None => None
  end.

(** [_prepare_player_insert].  The source also reads
    [config.reconciliation.required_fields_for_insert] into a local that is
    never used. *)
Definition _prepare_player_insert (nfl_player : series)
    (team_map pos_map : gmap string Z) (c : ctx) : option Insert.t * ctx :=
  let gsis_id := text_field nfl_player "gsis_id" in
  let first_name := text_field nfl_player "first_name" in
  let last_name := text_field nfl_player "last_name" in
  let nfl_team := norm_code nfl_player "latest_team" in
  let nfl_pos := norm_code nfl_player "position" in
  (* Validate required fields *)
  let missing := missing_fields gsis_id first_name last_name nfl_team nfl_pos in
  if negb (bool_decide (missing = [])) then
    (None, fail (missing_error nfl_player missing) c)
  else
    (* Map team and position *)
    let team_id := team_map !! nfl_team in
    let pos_id := pos_map !! nfl_pos in
    match usable_id team_id with
    | None => (None, fail (unknown_team_error nfl_team gsis_id) c)
    | Some team_id =>
        match usable_id pos_id with
        | None => (None, fail (unknown_position_error nfl_pos gsis_id) c)
        | Some pos_id =>
            (Some {| Insert.gsis := gsis_id;
                     Insert.firstname := first_name;
                     Insert.lastname := last_name;
                     Insert.realteamid := team_id;
                     Insert.positionid := pos_id;
                     Insert.jersey_number :=
                       series_get nfl_player "jersey_number" PNone;
                     Insert.display_name :=
                       series_get nfl_player "display_name"
                         (PStr (first_name +:+ " " +:+ last_name)) |},
             incr_new_players c)
        end
    end.

(** ** The reconciliation loop *)

(** What a run accumulates: [updates], [inserts] and the context. *)
Record run : Type := {
  updates : list Update.t;
  inserts : list Insert.t;
  context : ctx
}.

(** The body of the [for] loop of [reconcile_players] for one feed row.
    [db_lookup] is the dictionary built from the store rows, keyed by GSIS. *)
Definition reconcile_row (full_reconcile : bool)
    (db_lookup : gmap string db_row) (team_map pos_map : gmap string Z)
    (r : run) (nfl_player : series) : run :=
  let gsis_id := series_get nfl_player "gsis_id" PNone in
  (* Skip if no GSIS ID *)
  if Py.isna gsis_id || String.eqb (Py.strip (Py.str gsis_id)) "" then r
  else
    let gsis_id := Py.strip (Py.str gsis_id) in
    match db_lookup !! gsis_id with
    | Some db_player =>
        (* Existing player - check for updates *)
        match _check_player_updates full_reconcile nfl_player db_player
                team_map pos_map (context r) with
        | (Some update, c) =>
            {| updates := updates r ++ [update]; inserts := inserts r;
               context := c |}
        | (None, c) =>
            {| updates := updates r; inserts := inserts r;
               context := incr_unchanged c |}
        end
    | None =>
        (* New player - prepare insert *)
        match _prepare_player_insert nfl_player team_map pos_map (context r) with
        | (Some insert, c) =>
            {| updates := updates r; inserts := inserts r ++ [insert];
               context := c |}
        | (None, c) =>
            {| updates := updates r; inserts := inserts r; context := c |}
        end
    end.

(** The loop from an arbitrary accumulator. *)
Definition reconcile_from (full_reconcile : bool)
    (db_lookup : gmap string db_row) (team_map pos_map : gmap string Z)
    (r : run) (nfl_df : list series) : run :=
  fold_left (reconcile_row full_reconcile db_lookup team_map pos_map) nfl_df r.

(** [reconcile_players] on a reconciler whose context is [c]: both lists
    start empty.  The store rows come as the dictionary that the source
    builds from [db_df] before the loop. *)
Definition reconcile_players (full_reconcile : bool)
    (nfl_df : list series) (db_lookup : gmap string db_row)
    (team_map pos_map : gmap string Z) (c : ctx) : run :=
  reconcile_from full_reconcile db_lookup team_map pos_map
    {| updates := []; inserts := []; context := c |} nfl_df.

(** ** The change script: values of an INSERT statement *)

(** [_escape_sql] *)
Definition _escape_sql (value : pyval) : string :=
  if Py.isna value then ""
  else Py.replace_char "'" "''" (Py.str value).

(** A text value as [generate_sql_script] writes it: [f"'{escaped}'"]. *)
Definition sql_literal (value : pyval) : string :=
  "'" +:+ _escape_sql value +:+ "'".

Definition digit_of (c : ascii) : option Z :=
  let n := nat_of_ascii c in
  if ((48 <=? n) && (n <=? 57))%nat then Some (Z.of_nat (n - 48)) else None.

(** The digits of a decimal literal; one underscore may separate two
    digits. [after_digit] tells whether the previous character was one. *)
Fixpoint int_digits (acc : Z) (after_digit : bool) (s : string) : option Z :=
  match s with
  | EmptyString => if after_digit then Some acc else None
  | String c s' =>
      match digit_of c with
      | Some d => int_digits (10 * acc + d) true s'
      | None =>
          if Ascii.eqb c "_" && after_digit then int_digits acc false s'
          else None
      end
  end.

(** [int(v)]; [None] stands for the [TypeError], [ValueError] or
    [OverflowError] (on an infinite float) that the source does not catch.
    The interpreter's cap on the length of a literal is left out. *)
Definition py_int (v : pyval) : option Z :=
  match v with
  | PNone | PNaN | PInf _ => None
  | PInt z => Some z
  | PStr s =>
      match Py.strip s with
      | String "-" s' => Z.opp <$> int_digits 0 false s'
      | String "+" s' => int_digits 0 false s'
      | s' => int_digits 0 false s'
      end
  end.

(** The test guarding the jersey column:
    [insert.get('jersey_number') and not pd.isna(insert['jersey_number'])]. *)
Definition jersey_available (insert : Insert.t) : bool :=
  Py.truthy (Insert.jersey_number insert)
  && negb (Py.isna (Insert.jersey_number insert)).

(** The [columns] and [values] lists of one INSERT statement; [None] when
    [int(...)] raises on the jersey number. *)
Definition insert_columns_values (insert : Insert.t)
    : option (list string * list string) :=
  let columns := ["FIRSTNAME"; "LASTNAME"; "GSIS"; "REALTEAMID"; "POSITIONID";
                  "ISONINJUREDRESERVE"] in
  let values := [sql_literal (PStr (Insert.firstname insert));
                 sql_literal (PStr (Insert.lastname insert));
                 "'" +:+ Insert.gsis insert +:+ "'";
                 Py.str (PInt (Insert.realteamid insert));
                 Py.str (PInt (Insert.positionid insert));
                 "0"] in
  (* Add jersey number if available *)
  if jersey_available insert then
    match py_int (Insert.jersey_number insert) with
    | Some n => Some ((columns ++ ["JERSEYNUMBER"])%list,
                      (values ++ [Py.str (PInt n)])%list)
    | None => None
    end
  else Some (columns, values).

(** Reading a literal back, as a SQL reader does: the text between the
    enclosing quotes, every doubled quote standing for one quote.  This is
    the reader's side of the round trip; the repository only writes. *)
Fixpoint read_quoted (s : string) : option string :=
  match s with
  | EmptyString => None
  | String c s' =>
      if Ascii.eqb c "'" then
        match s' with
        | EmptyString => Some EmptyString
        | String d s'' =>
            if Ascii.eqb d "'" then String "'" <$> read_quoted s'' else None
        end
      else String c <$> read_quoted s'
  end.

Definition read_sql_literal (s : string) : option string :=
  match s with
  | String c s' => if Ascii.eqb c "'" then read_quoted s' else None
  | EmptyString => None
  end.

(** ** The change script: what [generate_sql_script] writes *)

Definition nl : string := String "010"%char EmptyString.

(** [str(len(l))] *)
Definition py_len {A} (l : list A) : string :=
  Py.str (PInt (Z.of_nat (length l))).

(** The [set_clauses] and [comments] lists of one update, filled by the
    two [if ... in update['changes']] tests in source order. *)
Definition update_clauses (update : Update.t) : list string * list string :=
  let set_clauses : list string := [] in
  let comments : list string := [] in
  let '(set_clauses, comments) :=
    match Update.changes update !! "realteamid" with
    | Some change =>
        ((set_clauses ++ ["REALTEAMID = " +:+ Py.str (PInt (new change))])%list,
         (comments ++ ["Team: " +:+ Py.str (old_abbrev change) +:+ " -> "
                       +:+ new_abbrev change])%list)
    | None => (set_clauses, comments)
    end in
  match Update.changes update !! "positionid" with
  | Some change =>
      ((set_clauses ++ ["POSITIONID = " +:+ Py.str (PInt (new change))])%list,
       (comments ++ ["Position: " +:+ Py.str (old_abbrev change) +:+ " -> "
                     +:+ new_abbrev change])%list)
  | None => (set_clauses, comments)
  end.

(** The five [f.write] calls for one update. *)
Definition update_writes (schema : string) (update : Update.t) : list string :=
  let '(set_clauses, comments) := update_clauses update in
  [ "-- " +:+ Py.str (Update.name update) +:+ " (GSIS: "
      +:+ Update.gsis update +:+ ")" +:+ nl;
    "-- Changes: " +:+ Py.join ", " comments +:+ nl;
    "UPDATE " +:+ schema +:+ ".TBLPLAYERS" +:+ nl;
    "SET " +:+ Py.join ", " set_clauses +:+ nl;
    "WHERE OID = " +:+ Py.str (Update.oid update) +:+ ";" +:+ nl +:+ nl ].

(** The [f.write] calls for one insert, and whether the loop body ran to
    its end: the comment line is written before [int(...)] can raise. *)
Definition insert_writes (schema : string) (insert : Insert.t)
    : list string * bool :=
  let comment := "-- " +:+ Py.str (Insert.display_name insert) +:+ " (GSIS: "
                 +:+ Insert.gsis insert +:+ ")" +:+ nl in
  match insert_columns_values insert with
  | Some (columns, values) =>
      ([ comment;
         "INSERT INTO " +:+ schema +:+ ".TBLPLAYERS ("
           +:+ Py.join ", " columns +:+ ")" +:+ nl;
         "VALUES (" +:+ Py.join ", " values +:+ ");" +:+ nl +:+ nl ], true)
  | None => ([comment], false)
  end.

(** The [for insert in inserts] loop: it stops at the first insert whose
    body raises. *)
Fixpoint inserts_writes (schema : string) (inserts : list Insert.t)
    : list string * bool :=
  match inserts with
  | [] => ([], true)
  | insert :: rest =>
      match insert_writes schema insert with
      | (w, true) =>
          let '(w', ok) := inserts_writes schema rest in ((w ++ w')%list, ok)
      | (w, false) => (w, false)
      end
  end.

Definition script_header (full_reconcile : bool) (now : string)
    (updates : list Update.t) (inserts : list Insert.t) : list string :=
  [ "-- Player Reconciliation SQL Script" +:+ nl;
    "-- Generated: " +:+ now +:+ nl;
    "-- Mode: " +:+ (if full_reconcile then "FULL RECONCILE" else "TEAM ONLY")
      +:+ nl;
    "-- Updates: " +:+ py_len updates +:+ nl;
    "-- Inserts: " +:+ py_len inserts +:+ nl;
    "--" +:+ nl;
    "-- REVIEW THIS SCRIPT BEFORE EXECUTING" +:+ nl;
    "--" +:+ nl +:+ nl ].

Definition section_banner (title : string) (lead : string) : list string :=
  [ lead +:+ "-- ============================================" +:+ nl;
    "-- " +:+ title +:+ nl;
    "-- ============================================" +:+ nl +:+ nl ].

Definition script_footer : list string :=
  [ nl +:+ "-- ============================================" +:+ nl;
    "-- COMMIT" +:+ nl;
    "-- ============================================" +:+ nl;
    "-- COMMIT;" +:+ nl;
    "-- Uncomment above line after reviewing changes" +:+ nl ].

(** The [if updates:] block: the banner and the statements. *)
Definition updates_section (schema : string) (updates : list Update.t)
    : list string :=
  match updates with
  | [] => []
  | _ => (section_banner "PLAYER UPDATES" ""
          ++ concat (map (update_writes schema) updates))%list
  end.

(** The [if inserts:] block: the banner and the loop. *)
Definition inserts_section (schema : string) (inserts : list Insert.t)
    : list string * bool :=
  match inserts with
  | [] => ([], true)
  | _ =>
      let '(w, ok) := inserts_writes schema inserts in
      ((section_banner "NEW PLAYERS" nl ++ w)%list, ok)
  end.

(** [generate_sql_script]: the texts handed to [f.write], in order, and
    whether the function returned (with the file name) or left through the
    exception of [int(...)].  [now] is the text of [datetime.now()] and
    [schema] is [config.database.schema]. *)
Definition generate_sql_script (full_reconcile : bool) (schema now : string)
    (updates : list Update.t) (inserts : list Insert.t) : list string * bool :=
  let header := script_header full_reconcile now updates inserts in
  (* Generate UPDATE statements *)
  let update_part := updates_section schema updates in
  (* Generate INSERT statements *)
  let '(insert_part, ok) := inserts_section schema inserts in
  if ok then ((header ++ update_part ++ insert_part ++ script_footer)%list, true)
  else ((header ++ update_part ++ insert_part)%list, false).

(** ** The error log: [write_error_log] *)

(** [c * n] for a one-character text [c]. *)
Fixpoint repeat_char (c : ascii) (n : nat) : string :=
  match n with
  | O => EmptyString
  | S n' => String c (repeat_char c n')
  end.

(** [write_error_log]: nothing when both lists are empty, else the name
    of the file, the texts handed to [f.write] in order, and the line
    sent to the logger.  [timestamp] is [self.timestamp] and [now] the text
    of [datetime.now()]. *)
Definition write_error_log (timestamp now : string) (c : ctx)
    : option (string * list string * string) :=
  if bool_decide (errors c = []) && bool_decide (warnings c = []) then None
  else
    let error_filename := "errors_" +:+ timestamp +:+ ".log" in
    let head :=
      [ "Player Reconciliation - Errors and Warnings" +:+ nl;
        "Generated: " +:+ now +:+ nl;
        repeat_char "=" 80 +:+ nl +:+ nl ] in
    let error_part :=
      match errors c with
      | [] => []
      | _ => (["ERRORS:" +:+ nl; repeat_char "-" 80 +:+ nl]
              ++ map (fun error => "  - " +:+ error +:+ nl) (errors c)
              ++ [nl])%list
      end in
    let warning_part :=
      match warnings c with
      | [] => []
      | _ => (["WARNINGS:" +:+ nl; repeat_char "-" 80 +:+ nl]
              ++ map (fun warning => "  - " +:+ warning +:+ nl) (warnings c))%list
      end in
    Some (error_filename, (head ++ error_part ++ warning_part)%list,
          "Errors and warnings written to: " +:+ error_filename).

(** ** The store connection: [get_db_connection] *)

Definition required_vars : list string :=
  ["ORACLE_USER"; "ORACLE_PASSWORD"; "ORACLE_HOST"; "ORACLE_SERVICE"].

(** [not os.getenv(var)]: the variable is unset or holds the empty text. *)
Definition env_unset (env : gmap string string) (var : string) : bool :=
  match env !! var with
  | Some v => String.eqb v ""
  | None => true
  end.

(** What [get_db_connection] hands to the driver and to the logger. *)
Record connection : Type := {
  user : string;
  password : string;
  host : string;
  port : string;
  service : string;
  logged : string
}.

(** [get_db_connection] over the process environment [env]: the message of
    the [EnvironmentError], or the arguments of [makedsn] and [connect]
    together with the line sent to the logger.  Past the test the four
    required variables are set, so only the port falls back on a default. *)
Definition get_db_connection (env : gmap string string) : string + connection :=
  let missing_vars := filter (fun var => env_unset env var = true) required_vars in
  if negb (bool_decide (missing_vars = [])) then
    inl ("Missing required environment variables: "
         +:+ Py.join ", " missing_vars +:+ nl
         +:+ "Please set: ORACLE_USER, ORACLE_PASSWORD, ORACLE_HOST, ORACLE_SERVICE")
  else
    let user := default "" (env !! "ORACLE_USER") in
    let password := default "" (env !! "ORACLE_PASSWORD") in
    let host := default "" (env !! "ORACLE_HOST") in
    let port := default "1521" (env !! "ORACLE_PORT") in
    let service := default "" (env !! "ORACLE_SERVICE") in
    inr {| user := user; password := password; host := host; port := port;
           service := service;
           logged := "Connecting to Oracle: " +:+ user +:+ "@" +:+ host +:+ ":"
                     +:+ port +:+ "/" +:+ service |}.

(** ** Vocabulary of the statements *)

(** The warning that the position lookup of a diff appends, if any. *)
Definition position_warnings (full : bool) (row : series)
    (pos_map : gmap string Z) : list string :=
  let nfl_pos := norm_code row "position" in
  if full && negb (String.eqb nfl_pos "") then
    match pos_map !! nfl_pos with
    | Some _ => []
    | None => [position_warning row nfl_pos]
    end
  else [].

(** [sub] occurs in [s]. *)
Definition mentions (sub s : string) : Prop :=
  exists pre post, s = pre +:+ sub +:+ post.

(** The five required fields of a row as the insert path reads them. *)
Definition required_present (row : series) : Prop :=
  missing_fields (text_field row "gsis_id") (text_field row "first_name")
    (text_field row "last_name") (norm_code row "latest_team")
    (norm_code row "position") = [].

(** A proposal holds a team change or a position change. *)
Definition has_field_change (u : Update.t) : Prop :=
  is_Some (Update.changes u !! "realteamid")
  \/ is_Some (Update.changes u !! "positionid").

(** An accumulator with nothing in it. *)
Definition fresh_run : run := {| updates := []; inserts := []; context := ctx0 |}.

(** The sum of the six counters of an accumulator. *)
Definition counted (r : run) : Z := Stats.total (stats (context r)).

(** The key under which the loop looks a feed row up. *)
Definition row_id (row : series) : string :=
  Py.strip (Py.str (series_get row "gsis_id" PNone)).

(** The row passes the test at the top of the loop body. *)
Definition has_id (row : series) : bool :=
  negb (Py.isna (series_get row "gsis_id" PNone) || String.eqb (row_id row) "").

(** The row has an identifier that the store knows, or does not know. *)
Definition is_matched (db_lookup : gmap string db_row) (row : series) : bool :=
  has_id row && bool_decide (is_Some (db_lookup !! row_id row)).

Definition is_unmatched (db_lookup : gmap string db_row) (row : series) : bool :=
  has_id row && bool_decide (db_lookup !! row_id row = None).

(** The proposal has an entry under [key]. *)
Definition carries (key : string) (u : Update.t) : bool :=
  bool_decide (is_Some (Update.changes u !! key)).

(** Number of elements of [l] that satisfy [f], as a Python integer. *)
Definition how_many {A} (f : A -> bool) (l : list A) : Z :=
  Z.of_nat (length (List.filter f l)).

(** The text holds no single quote. *)
Fixpoint quote_free (s : string) : bool :=
  match s with
  | EmptyString => true
  | String c s' => negb (Ascii.eqb c "'") && quote_free s'
  end.

(** The books of a run over [rows] that takes the accumulator [r] to
    [r']: what was appended to the four lists, and how each counter moved. *)
Definition ledger (db_lookup : gmap string db_row) (rows : list series)
    (r r' : run) : Prop :=
  exists us ins es ws,
    updates r' = (updates r ++ us)%list
    /\ inserts r' = (inserts r ++ ins)%list
    /\ errors (context r') = (errors (context r) ++ es)%list
    /\ warnings (context r') = (warnings (context r) ++ ws)%list
    /\ Z.of_nat (length us) + Stats.unchanged (stats (context r'))
       = Stats.unchanged (stats (context r)) + how_many (is_matched db_lookup) rows
    /\ Z.of_nat (length ins) + Z.of_nat (length es)
       = how_many (is_unmatched db_lookup) rows
    /\ Stats.new_players (stats (context r'))
       = Stats.new_players (stats (context r)) + Z.of_nat (length ins)
    /\ Stats.errors (stats (context r'))
       = Stats.errors (stats (context r)) + Z.of_nat (length es)
    /\ Stats.warnings (stats (context r'))
       = Stats.warnings (stats (context r)) + Z.of_nat (length ws)
    /\ Stats.team_updates (stats (context r'))
       = Stats.team_updates (stats (context r))
         + how_many (carries "realteamid") us
    /\ Stats.position_updates (stats (context r'))
       = Stats.position_updates (stats (context r))
         + how_many (carries "positionid") us.

(** [s] begins with [p]. *)
Fixpoint starts_with (p s : string) : bool :=
  match p with
  | EmptyString => true
  | String a p' =>
      match s with
      | EmptyString => false
      | String b s' => Ascii.eqb a b && starts_with p' s'
      end
  end.

(** The text is an entry line of the error log. *)
Definition is_entry (w : string) : bool := starts_with "  - " w.

(** The cell is [None], NaN or a finite number: neither text nor an
    infinite float. *)
Definition missing_or_finite (v : pyval) : bool :=
  match v with
  | PNone | PNaN | PInt _ => true
  | PStr _ | PInf _ => false
  end.

(** ** Sample data *)

Module Sample.

Definition team_map : gmap string Z := <["KC" := 3]> (<["DEN" := 5]> ∅).
Definition pos_map : gmap string Z := <["QB" := 9]> (<["RB" := 12]> ∅).

Definition row (gsis first last team pos : string) : series :=
  <["gsis_id" := PStr gsis]> (<["first_name" := PStr first]>
  (<["last_name" := PStr last]> (<["display_name" := PStr (first +:+ " " +:+ last)]>
  (<["latest_team" := PStr team]> (<["position" := PStr pos]> ∅))))).

Definition jane_kc_qb : series := row "00-1234" "Jane" "Doe" "KC" "QB".
Definition jane_kc_rb : series := row "00-1234" "Jane" "Doe" "KC" "RB".
Definition jane_xx_yy : series := row "00-1234" "Jane" "Doe" "XX" "YY".
Definition jane_den_qb : series := row "00-1234" "Jane" "Doe" "DEN" "QB".

Definition stored_den_qb : db_row :=
  {| OID := PInt 1; REALTEAMID := PInt 5; POSITIONID := PInt 9;
     CURRENT_TEAM := PStr "DEN"; CURRENT_POSITION := PStr "QB" |}.

Definition db_lookup : gmap string db_row := <["00-1234" := stored_den_qb]> ∅.

End Sample.

(** * Properties *)

Example strip_ex : Py.strip "  kc  " = "kc".
Proof. reflexivity. Qed.

Example upper_ex : Py.upper (Py.strip " kc ") = "KC".
Proof. reflexivity. Qed.

Example str_nan_ex : Py.upper (Py.strip (Py.str PNaN)) = "NAN".
Proof. reflexivity. Qed.

Example str_int_ex : Py.str (PInt (-12)) = "-12".
Proof. reflexivity. Qed.

Example repr_list_ex :
  Py.repr_list ["gsis_id"; "position"] = "['gsis_id', 'position']".
Proof. reflexivity. Qed.

Example py_int_ex :
  py_int (PStr " 1_2 ") = Some 12 /\ py_int (PStr "-07") = Some (-7)
  /\ py_int (PStr "12.0") = None /\ py_int (PStr "1__2") = None
  /\ py_int (PStr "") = None.
Proof. repeat split; reflexivity. Qed.

Example escape_ex : sql_literal (PStr "O'Neil") = "'O''Neil'".
Proof. reflexivity. Qed.

(** The first scenario of the specification: team-only mode, the stored team
    differs, one proposal with the single team change. *)
Example scenario_team_only :
  let r := reconcile_players false [Sample.jane_kc_qb] Sample.db_lookup
             Sample.team_map Sample.pos_map ctx0 in
  (Update.changes <$> updates r)
    = [ {["realteamid" := {| old := PInt 5; new := 3;
                             old_abbrev := PStr "DEN"; new_abbrev := "KC" |}]} ]
  /\ inserts r = []
  /\ stats (context r) = Stats.Build_t 1 0 0 0 0 0.
Proof. vm_compute. repeat split; reflexivity. Qed.

(** ** Bookkeeping lemmas for the context *)

Lemma warnings_warn msg c : warnings (warn msg c) = (warnings c ++ [msg])%list.
Proof. reflexivity. Qed.

Lemma errors_fail msg c : errors (fail msg c) = (errors c ++ [msg])%list.
Proof. reflexivity. Qed.

(** The two lookups of a diff leave the error channel alone. *)
Lemma check_player_updates_errors full row db tm pm c :
  errors (_check_player_updates full row db tm pm c).2 = errors c
  /\ Stats.errors (stats (_check_player_updates full row db tm pm c).2)
     = Stats.errors (stats c).
Proof.
  unfold _check_player_updates.
  repeat (case_match; simplify_eq/=); done.
Qed.

Lemma check_player_updates_unknown_team full row db tm pm c :
  norm_code row "latest_team" <> "" ->
  tm !! norm_code row "latest_team" = None ->
  let out := _check_player_updates full row db tm pm c in
  (forall u, out.1 = Some u -> Update.changes u !! "realteamid" = None)
  /\ warnings out.2
     = (warnings c ++ team_warning row (norm_code row "latest_team")
          :: position_warnings full row pm)%list.
Proof.
  intros Hne Hnone. unfold _check_player_updates, position_warnings.
  apply String.eqb_neq in Hne. rewrite Hne, Hnone. simpl.
  repeat (case_match; simplify_eq/=); split; try done.
  - intros u [= <-]. simpl. by rewrite lookup_insert_ne.
  - by rewrite <- app_assoc.
Qed.

Lemma prepare_insert_unknown_team row tm pm c :
  required_present row ->
  tm !! norm_code row "latest_team" = None ->
  _prepare_player_insert row tm pm c
  = (None, fail (unknown_team_error (norm_code row "latest_team")
                   (text_field row "gsis_id")) c).
Proof.
  unfold required_present, _prepare_player_insert. intros -> ->. reflexivity.
Qed.

(** C1 (as amended).  A matched row whose normalised team code is non-empty
    and absent from the team mapping gets no team change, and its team
    warning is appended exactly once; the only other warning such a row can
    get is the one for an unknown position code in full mode, so without it
    exactly one warning is appended.  Nothing reaches the error channel.  An
    unmatched row with the same code and all required fields present gets
    no insert proposal and exactly one error. *)
Theorem unknown_team_code_asymmetry full row db tm pm c :
  norm_code row "latest_team" <> "" ->
  tm !! norm_code row "latest_team" = None ->
  let nfl_team := norm_code row "latest_team" in
  let upd := _check_player_updates full row db tm pm c in
  let ins := _prepare_player_insert row tm pm c in
  (forall u, upd.1 = Some u -> Update.changes u !! "realteamid" = None)
  /\ warnings upd.2
     = (warnings c ++ team_warning row nfl_team
          :: position_warnings full row pm)%list
  /\ (full = false \/ norm_code row "position" = ""
      \/ is_Some (pm !! norm_code row "position") ->
      warnings upd.2 = (warnings c ++ [team_warning row nfl_team])%list
      /\ Stats.warnings (stats upd.2) = Stats.warnings (stats c) + 1)
  /\ errors upd.2 = errors c
  /\ Stats.errors (stats upd.2) = Stats.errors (stats c)
  /\ (required_present row ->
      ins.1 = None
      /\ errors ins.2
         = (errors c ++ [unknown_team_error nfl_team (text_field row "gsis_id")])%list
      /\ Stats.errors (stats ins.2) = Stats.errors (stats c) + 1
      /\ warnings ins.2 = warnings c).
Proof.
  intros Hne Hnone nfl_team upd ins.
  destruct (check_player_updates_unknown_team full row db tm pm c Hne Hnone)
    as [Hteam Hwarn].
  destruct (check_player_updates_errors full row db tm pm c) as [He Hse].
  assert (Hsw : Stats.warnings (stats upd.2)
                = Stats.warnings (stats c) + 1
                  + Z.of_nat (length (position_warnings full row pm))).
  { subst upd. unfold _check_player_updates, position_warnings.
    apply String.eqb_neq in Hne. fold nfl_team in Hne, Hnone |- *.
    rewrite Hne, Hnone. simpl.
    repeat (case_match; simplify_eq/=); lia. }
  split_and!; try done.
  - intros Hpos.
    assert (position_warnings full row pm = []) as Hnil.
    { unfold position_warnings.
      destruct Hpos as [-> | [-> | [p ->]]]; try done.
      - by rewrite andb_false_r.
      - by case_match. }
    subst upd nfl_team. rewrite Hsw, Hwarn, Hnil. simpl. split; [done | lia].
  - intros Hreq. subst ins.
    rewrite prepare_insert_unknown_team by done. simpl.
    split_and!; done.
Qed.

Lemma unknown_team_code_asymmetry_witness :
  norm_code Sample.jane_xx_yy "latest_team" = "XX"
  /\ Sample.team_map !! "XX" = None
  /\ warnings (_check_player_updates false Sample.jane_xx_yy
                 Sample.stored_den_qb Sample.team_map Sample.pos_map ctx0).2
     = ["Unknown team 'XX' for player 00-1234 - Jane Doe"]
  /\ errors (_prepare_player_insert Sample.jane_xx_yy
               Sample.team_map Sample.pos_map ctx0).2
     = ["Cannot insert player - unknown team 'XX': 00-1234"].
Proof.
  split; [vm_compute; reflexivity |].
  split; [vm_compute; reflexivity |].
  destruct (unknown_team_code_asymmetry false Sample.jane_xx_yy
              Sample.stored_den_qb Sample.team_map Sample.pos_map ctx0)
    as (_ & Hw & _ & _ & _ & Hins).
  - vm_compute. discriminate.
  - vm_compute. reflexivity.
  - split.
    + rewrite Hw. vm_compute. reflexivity.
    + destruct Hins as (_ & He & _).
      * vm_compute. reflexivity.
      * rewrite He. vm_compute. reflexivity.
Defined.

(** C1 as stated fails in full mode: a matched row whose team code and
    position code are both unknown appends two warnings, not one. *)
Lemma unknown_team_two_warnings :
  let upd := _check_player_updates true Sample.jane_xx_yy
               Sample.stored_den_qb Sample.team_map Sample.pos_map ctx0 in
  norm_code Sample.jane_xx_yy "latest_team" <> ""
  /\ Sample.team_map !! norm_code Sample.jane_xx_yy "latest_team" = None
  /\ warnings upd.2
     = ["Unknown team 'XX' for player 00-1234 - Jane Doe";
        "Unknown position 'YY' for player 00-1234 - Jane Doe"]
  /\ Stats.warnings (stats upd.2) = 2
  /\ ~ (exists w, warnings upd.2 = (warnings ctx0 ++ [w])%list).
Proof.
  vm_compute. split_and!; try done.
  intros [w Hw]. discriminate Hw.
Qed.

(** C10.  An unmatched row with every required field present whose team
    code and position code are both unknown is rejected with the single
    error about the team; [errors] is the only counter that moves, by one,
    and the position mapping plays no part in the outcome. *)
Theorem unknown_team_hides_unknown_position row tm pm c :
  required_present row ->
  tm !! norm_code row "latest_team" = None ->
  pm !! norm_code row "position" = None ->
  let out := _prepare_player_insert row tm pm c in
  out.1 = None
  /\ errors out.2
     = (errors c ++ [unknown_team_error (norm_code row "latest_team")
                       (text_field row "gsis_id")])%list
  /\ stats out.2 = stats (incr_errors c)
  /\ Stats.errors (stats out.2) = Stats.errors (stats c) + 1
  /\ warnings out.2 = warnings c
  /\ (forall pm', _prepare_player_insert row tm pm' c = out).
Proof.
  intros Hreq Hteam Hpos out. subst out.
  rewrite prepare_insert_unknown_team by done.
  split_and!; try done.
  intros pm'. by rewrite prepare_insert_unknown_team.
Qed.

Lemma unknown_team_hides_unknown_position_witness :
  let out := _prepare_player_insert Sample.jane_xx_yy
               Sample.team_map Sample.pos_map ctx0 in
  required_present Sample.jane_xx_yy
  /\ Sample.pos_map !! "YY" = None
  /\ out.1 = None
  /\ errors out.2 = ["Cannot insert player - unknown team 'XX': 00-1234"]
  /\ stats out.2 = Stats.Build_t 0 0 0 1 0 0.
Proof.
  split; [vm_compute; reflexivity |].
  split; [vm_compute; reflexivity |].
  destruct (unknown_team_hides_unknown_position Sample.jane_xx_yy
              Sample.team_map Sample.pos_map ctx0)
    as (Hres & He & Hs & _).
  - vm_compute. reflexivity.
  - vm_compute. reflexivity.
  - vm_compute. reflexivity.
  - split; [exact Hres |]. split.
    + rewrite He. vm_compute. reflexivity.
    + rewrite Hs. vm_compute. reflexivity.
Defined.

(** ** Text lemmas *)

Lemma string_app_cons c s t : String c s +:+ t = String c (s +:+ t).
Proof. reflexivity. Qed.

Lemma string_app_nil_r s : s +:+ "" = s.
Proof. induction s as [| c s IH]; [done |]. by rewrite string_app_cons, IH. Qed.

Lemma string_app_assoc s t u : (s +:+ t) +:+ u = s +:+ t +:+ u.
Proof.
  induction s as [| c s IH]; [done |]. by rewrite !string_app_cons, IH.
Qed.

Lemma upper_empty s : Py.upper s = "" <-> s = "".
Proof. destruct s; split; intros H; done. Qed.

Lemma mentions_refl s : mentions s s.
Proof. exists "", "". by rewrite string_app_nil_r. Qed.

Lemma mentions_app_l sub p s : mentions sub s -> mentions sub (p +:+ s).
Proof.
  intros (pre & post & ->). exists (p +:+ pre), post.
  by rewrite string_app_assoc.
Qed.

Lemma mentions_app_r sub s p : mentions sub s -> mentions sub (s +:+ p).
Proof.
  intros (pre & post & ->). exists pre, (post +:+ p).
  by rewrite !string_app_assoc.
Qed.

Lemma mentions_join sep x l : x ∈ l -> mentions x (Py.join sep l).
Proof.
  induction l as [| a l IH]; [by intros ?%elem_of_nil |].
  intros [-> | Hin]%elem_of_cons.
  - destruct l; [apply mentions_refl |].
    apply mentions_app_r, mentions_refl.
  - destruct l as [| b l]; [by apply elem_of_nil in Hin |].
    change (mentions x (a +:+ sep +:+ Py.join sep (b :: l))).
    by apply mentions_app_l, mentions_app_l, IH.
Qed.

Lemma mentions_repr_list x l :
  x ∈ l -> mentions (Py.repr_str x) (Py.repr_list l).
Proof.
  intros Hin. unfold Py.repr_list.
  apply mentions_app_l, mentions_app_r, mentions_join.
  by apply list_elem_of_fmap_2.
Qed.

Lemma mentions_missing_error row x l :
  x ∈ l -> mentions (Py.repr_str x) (missing_error row l).
Proof.
  intros Hin. unfold missing_error.
  by apply mentions_app_l, mentions_app_r, mentions_repr_list.
Qed.

(** Membership in the concatenation built by [missing_fields]. *)
Ltac in_missing :=
  simpl;
  repeat first
    [ apply list_elem_of_here
    | apply elem_of_app; first [ left; apply list_elem_of_here | right ] ].

(** Validation of blank text.  When the text of one of the five required
    fields of an unmatched row is empty after trimming, no proposal is
    returned and exactly one error is appended, whose text quotes the name
    of every such field.  Conversely a proposal that is returned has every
    required field filled in: three non-empty texts and two identifiers
    found in the mappings. *)
Theorem insert_validation_complete row tm pm c :
  let gsis_id := text_field row "gsis_id" in
  let first_name := text_field row "first_name" in
  let last_name := text_field row "last_name" in
  let team_code := text_field row "latest_team" in
  let position_code := text_field row "position" in
  let missing := missing_fields gsis_id first_name last_name
                   (Py.upper team_code) (Py.upper position_code) in
  let out := _prepare_player_insert row tm pm c in
  (gsis_id = "" \/ first_name = "" \/ last_name = "" \/ team_code = ""
   \/ position_code = "" ->
   out.1 = None
   /\ errors out.2 = (errors c ++ [missing_error row missing])%list
   /\ stats out.2 = stats (incr_errors c)
   /\ warnings out.2 = warnings c
   /\ (gsis_id = "" -> mentions "'gsis_id'" (missing_error row missing))
   /\ (first_name = "" -> mentions "'first_name'" (missing_error row missing))
   /\ (last_name = "" -> mentions "'last_name'" (missing_error row missing))
   /\ (team_code = "" -> mentions "'latest_team'" (missing_error row missing))
   /\ (position_code = "" -> mentions "'position'" (missing_error row missing)))
  /\ (forall ins, out.1 = Some ins ->
      Insert.gsis ins = gsis_id /\ gsis_id <> ""
      /\ Insert.firstname ins = first_name /\ first_name <> ""
      /\ Insert.lastname ins = last_name /\ last_name <> ""
      /\ team_code <> "" /\ position_code <> ""
      /\ tm !! Py.upper team_code = Some (Insert.realteamid ins)
      /\ pm !! Py.upper position_code = Some (Insert.positionid ins)).
Proof.
  intros gsis_id first_name last_name team_code position_code missing out.
  assert (Hout : out = _prepare_player_insert row tm pm c) by done.
  unfold _prepare_player_insert in Hout.
  change (norm_code row "latest_team") with (Py.upper team_code) in Hout.
  change (norm_code row "position") with (Py.upper position_code) in Hout.
  fold gsis_id first_name last_name in Hout. fold missing in Hout.
  split.
  - intros Hempty.
    assert (Hmiss : missing <> []).
    { unfold missing, missing_fields.
      destruct Hempty as [-> | [-> | [-> | [-> | ->]]]]; simpl;
        repeat case_match; done. }
    rewrite bool_decide_false in Hout by done. simpl in Hout. rewrite Hout.
    split_and!; try done.
    + intros Heq. apply (mentions_missing_error row "gsis_id").
      unfold missing, missing_fields. rewrite Heq. in_missing.
    + intros Heq. apply (mentions_missing_error row "first_name").
      unfold missing, missing_fields. rewrite Heq. in_missing.
    + intros Heq. apply (mentions_missing_error row "last_name").
      unfold missing, missing_fields. rewrite Heq. in_missing.
    + intros Heq. apply (mentions_missing_error row "latest_team").
      unfold missing, missing_fields. rewrite Heq. in_missing.
    + intros Heq. apply (mentions_missing_error row "position").
      unfold missing, missing_fields. rewrite Heq. in_missing.
  - intros ins Hins. rewrite Hout in Hins. clear Hout.
    case_bool_decide as Hmiss; simpl in Hins; [| done].
    unfold missing, missing_fields in Hmiss.
    destruct (String.eqb_spec gsis_id ""); [done |].
    destruct (String.eqb_spec first_name ""); [done |].
    destruct (String.eqb_spec last_name ""); [done |].
    destruct (String.eqb_spec (Py.upper team_code) "") as [| Ht]; [done |].
    destruct (String.eqb_spec (Py.upper position_code) "") as [| Hp]; [done |].
    rewrite upper_empty in Ht, Hp.
    unfold usable_id in Hins.
    repeat (case_match; simplify_eq/=). split_and!; done.
Qed.

(** The validation works on the text of a cell: the NaN of an empty CSV
    cell is the text [nan], which is not empty. *)
Example nan_first_name_passes :
  (Insert.firstname
     <$> (_prepare_player_insert (<["first_name" := PNaN]> Sample.jane_kc_qb)
            Sample.team_map Sample.pos_map ctx0).1)
  = Some "nan".
Proof. vm_compute. reflexivity. Qed.

Lemma insert_validation_complete_witness :
  let r := Sample.row "00-9" " " "Doe" "KC" "" in
  let out := _prepare_player_insert r Sample.team_map Sample.pos_map ctx0 in
  text_field r "first_name" = ""
  /\ out.1 = None
  /\ errors out.2
     = ["Cannot insert player - missing fields ['first_name', 'position']:   Doe"]
  /\ mentions "'position'"
       "Cannot insert player - missing fields ['first_name', 'position']:   Doe".
Proof.
  intros r out.
  assert (Hfirst : text_field r "first_name" = "") by (vm_compute; reflexivity).
  assert (Hpos : text_field r "position" = "") by (vm_compute; reflexivity).
  destruct (insert_validation_complete r Sample.team_map Sample.pos_map ctx0)
    as [Hrej _].
  destruct Hrej as (Hres & He & _ & _ & _ & _ & _ & _ & Hm).
  - right. left. exact Hfirst.
  - split; [exact Hfirst |]. split; [exact Hres |]. split.
    + subst out. rewrite He. vm_compute. reflexivity.
    + apply Hm in Hpos. vm_compute in Hpos. exact Hpos.
Defined.

(** C2 (code bug).  An unmatched row whose first-name cell is the NaN of an
    empty CSV field lacks a required field, and yet it passes the
    validation, which looks at [str(cell)]: [_prepare_player_insert] returns
    a proposal with the text [nan] as first name, appends no error and
    counts a new player.  The loop's own test on [gsis_id] does take the
    same cell for a missing one, and skips the row. *)
Theorem missing_first_name_is_not_rejected :
  let row := <["first_name" := PNaN]> Sample.jane_kc_qb in
  let out := _prepare_player_insert row Sample.team_map Sample.pos_map ctx0 in
  Py.isna (series_get row "first_name" (PStr "")) = true
  /\ (Insert.firstname <$> out.1) = Some "nan"
  /\ errors out.2 = []
  /\ stats out.2 = Stats.Build_t 0 0 1 0 0 0
  /\ reconcile_row false ∅ Sample.team_map Sample.pos_map fresh_run
       (<["gsis_id" := PNaN]> Sample.jane_kc_qb) = fresh_run.
Proof. vm_compute. split_and!; reflexivity. Qed.

(** ** Mode gating and idempotence of the diff *)

Lemma series_get_agree (row row' : series) skip k d :
  (forall k, k <> skip -> row' !! k = row !! k) ->
  k <> skip -> series_get row' k d = series_get row k d.
Proof. intros H Hk. unfold series_get. by rewrite H. Qed.

(** C3.  In team-only mode a proposal never holds a position change and
    [position_updates] does not move; the outcome is the same for any other
    position cell of the feed row, any other position mapping and any other
    stored position, so the position is not looked at. *)
Theorem team_only_never_inspects_position
    (row row' : series) db db' tm pm pm' c :
  (forall k, k <> "position" -> row' !! k = row !! k) ->
  OID db' = OID db ->
  REALTEAMID db' = REALTEAMID db ->
  CURRENT_TEAM db' = CURRENT_TEAM db ->
  let out := _check_player_updates false row db tm pm c in
  (forall u, out.1 = Some u -> Update.changes u !! "positionid" = None)
  /\ Stats.position_updates (stats out.2) = Stats.position_updates (stats c)
  /\ _check_player_updates false row' db' tm pm' c = out.
Proof.
  intros Hrow Hoid Hteam Hlabel out. subst out.
  unfold _check_player_updates, norm_code, team_warning.
  rewrite !(series_get_agree row row' "position") by done.
  rewrite Hoid, Hteam, Hlabel.
  repeat (case_match; simplify_eq/=); split_and!; try done.
  intros u [= <-]. simpl. by rewrite lookup_insert_ne.
Qed.

Lemma team_only_never_inspects_position_witness :
  let stored_rb :=
    {| OID := PInt 1; REALTEAMID := PInt 5; POSITIONID := PInt 12;
       CURRENT_TEAM := PStr "DEN"; CURRENT_POSITION := PStr "RB" |} in
  _check_player_updates false (<["position" := PStr "RB"]> Sample.jane_kc_qb)
    stored_rb Sample.team_map ∅ ctx0
  = _check_player_updates false Sample.jane_kc_qb Sample.stored_den_qb
      Sample.team_map Sample.pos_map ctx0.
Proof.
  intros stored_rb.
  apply (team_only_never_inspects_position Sample.jane_kc_qb
           (<["position" := PStr "RB"]> Sample.jane_kc_qb)
           Sample.stored_den_qb stored_rb Sample.team_map Sample.pos_map ∅ ctx0).
  - intros k Hk. apply lookup_insert_ne. congruence.
  - reflexivity.
  - reflexivity.
  - reflexivity.
Defined.

(** C4.  When the stored team is the one the feed's team code resolves to
    and, in full mode, the stored position is the one the feed's position
    code resolves to, the diff returns no proposal - and it leaves the
    context as it found it. *)
Theorem diff_of_reconciled_pair_is_none full row db tm pm c t :
  tm !! norm_code row "latest_team" = Some t ->
  REALTEAMID db = PInt t ->
  (full = true ->
   exists p, pm !! norm_code row "position" = Some p /\ POSITIONID db = PInt p) ->
  _check_player_updates full row db tm pm c = (None, c).
Proof.
  intros Hteam Hold Hpos. unfold _check_player_updates.
  rewrite Hteam, Hold. simpl. rewrite Z.eqb_refl. simpl.
  destruct full; simpl.
  - destruct Hpos as (p & -> & ->); [done |]. simpl. rewrite Z.eqb_refl. simpl.
    repeat (case_match; simplify_eq/=); done.
  - repeat (case_match; simplify_eq/=); done.
Qed.

Lemma diff_of_reconciled_pair_is_none_witness :
  Sample.team_map !! norm_code Sample.jane_den_qb "latest_team" = Some 5
  /\ _check_player_updates true Sample.jane_den_qb Sample.stored_den_qb
       Sample.team_map Sample.pos_map ctx0 = (None, ctx0).
Proof.
  split; [vm_compute; reflexivity |].
  apply (diff_of_reconciled_pair_is_none true Sample.jane_den_qb
           Sample.stored_den_qb Sample.team_map Sample.pos_map ctx0 5).
  - vm_compute. reflexivity.
  - reflexivity.
  - intros _. exists 9. split; [vm_compute; reflexivity | reflexivity].
Defined.

(** ** The reconciliation loop *)

Lemma check_player_updates_has_change full row db tm pm c u :
  (_check_player_updates full row db tm pm c).1 = Some u ->
  has_field_change u /\ Update.changes u <> ∅.
Proof.
  unfold _check_player_updates, has_field_change.
  repeat (case_match; simplify_eq/=); intros [= <-]; simpl; split; try done.
  all: first [ left; by rewrite lookup_insert_eq
             | right; by rewrite lookup_insert_eq ].
Qed.

Lemma check_player_updates_unchanged full row db tm pm c :
  Stats.unchanged (stats (_check_player_updates full row db tm pm c).2)
  = Stats.unchanged (stats c).
Proof.
  unfold _check_player_updates.
  repeat (case_match; simplify_eq/=); done.
Qed.

(** The proposal of a diff does not depend on the context it runs in. *)
Lemma check_player_updates_result full row db tm pm c c' :
  (_check_player_updates full row db tm pm c).1
  = (_check_player_updates full row db tm pm c').1.
Proof.
  unfold _check_player_updates.
  repeat (case_match; simplify_eq/=); done.
Qed.

Lemma prepare_player_insert_result row tm pm c c' :
  (_prepare_player_insert row tm pm c).1 = (_prepare_player_insert row tm pm c').1.
Proof.
  unfold _prepare_player_insert.
  repeat (case_match; simplify_eq/=); done.
Qed.

Lemma reconcile_row_updates full db_lookup tm pm r row :
  updates (reconcile_row full db_lookup tm pm r row)
  = (updates r ++ updates (reconcile_row full db_lookup tm pm fresh_run row))%list.
Proof.
  unfold reconcile_row.
  destruct (Py.isna _ || _); [by rewrite app_nil_r |].
  destruct (db_lookup !! _) as [db |].
  - pose proof (check_player_updates_result full row db tm pm
                  (context r) (context fresh_run)) as Hres.
    destruct (_check_player_updates full row db tm pm (context r)) as [[u |] c1],
      (_check_player_updates full row db tm pm (context fresh_run)) as [[u' |] c2];
      simplify_eq/=; by rewrite ?app_nil_r.
  - destruct (_prepare_player_insert row tm pm (context r)) as [[i |] c1],
      (_prepare_player_insert row tm pm (context fresh_run)) as [[i' |] c2];
      simpl; by rewrite ?app_nil_r.
Qed.

Lemma reconcile_row_inserts full db_lookup tm pm r row :
  inserts (reconcile_row full db_lookup tm pm r row)
  = (inserts r ++ inserts (reconcile_row full db_lookup tm pm fresh_run row))%list.
Proof.
  unfold reconcile_row.
  destruct (Py.isna _ || _); [by rewrite app_nil_r |].
  destruct (db_lookup !! _) as [db |].
  - destruct (_check_player_updates full row db tm pm (context r)) as [[u |] c1],
      (_check_player_updates full row db tm pm (context fresh_run)) as [[u' |] c2];
      simpl; by rewrite ?app_nil_r.
  - pose proof (prepare_player_insert_result row tm pm
                  (context r) (context fresh_run)) as Hres.
    destruct (_prepare_player_insert row tm pm (context r)) as [[i |] c1],
      (_prepare_player_insert row tm pm (context fresh_run)) as [[i' |] c2];
      simplify_eq/=; by rewrite ?app_nil_r.
Qed.

Lemma reconcile_row_updates_Forall (P : Update.t -> Prop) full db_lookup tm pm r row :
  (forall db c u,
     (_check_player_updates full row db tm pm c).1 = Some u -> P u) ->
  Forall P (updates r) ->
  Forall P (updates (reconcile_row full db_lookup tm pm r row)).
Proof.
  intros HP Hr. unfold reconcile_row.
  destruct (Py.isna _ || _); [done |].
  destruct (db_lookup !! _) as [db |].
  - pose proof (HP db (context r)) as Hu.
    destruct (_check_player_updates full row db tm pm (context r)) as [[u |] c1];
      simpl; [| done].
    apply Forall_app. split; [done |]. apply Forall_singleton. by apply Hu.
  - by destruct (_prepare_player_insert row tm pm (context r)) as [[i |] c1].
Qed.

Lemma reconcile_from_updates_Forall (P : Update.t -> Prop) full db_lookup tm pm nfl_df :
  (forall row db c u,
     (_check_player_updates full row db tm pm c).1 = Some u -> P u) ->
  forall r, Forall P (updates r) ->
  Forall P (updates (reconcile_from full db_lookup tm pm r nfl_df)).
Proof.
  intros HP. unfold reconcile_from.
  induction nfl_df as [| row rows IH]; intros r Hr; simpl; [done |].
  apply IH, reconcile_row_updates_Forall; [| done].
  intros db c u. apply HP.
Qed.

(** C5.  Every proposal in the update list of a run holds a team change or
    a position change.  For a matched row the loop either appends the
    proposal of the diff, or - when the diff has nothing to propose - keeps
    both lists as they are and adds one to [unchanged]. *)
Theorem change_proposals_nonempty full nfl_df db_lookup tm pm c :
  Forall (fun u => has_field_change u /\ Update.changes u <> ∅)
    (updates (reconcile_players full nfl_df db_lookup tm pm c))
  /\ (forall r row db,
        let cell := series_get row "gsis_id" PNone in
        Py.isna cell = false ->
        Py.strip (Py.str cell) <> "" ->
        db_lookup !! Py.strip (Py.str cell) = Some db ->
        let r' := reconcile_row full db_lookup tm pm r row in
        match (_check_player_updates full row db tm pm (context r)).1 with
        | Some u =>
            has_field_change u
            /\ updates r' = (updates r ++ [u])%list
            /\ Stats.unchanged (stats (context r'))
               = Stats.unchanged (stats (context r))
        | None =>
            updates r' = updates r
            /\ inserts r' = inserts r
            /\ Stats.unchanged (stats (context r'))
               = Stats.unchanged (stats (context r)) + 1
        end).
Proof.
  split.
  - apply reconcile_from_updates_Forall; [| by apply Forall_nil].
    intros row db c' u. apply check_player_updates_has_change.
  - intros r row db cell Hna Hne Hdb r'. subst r'. unfold reconcile_row.
    fold cell. rewrite Hna. apply String.eqb_neq in Hne. rewrite Hne. simpl.
    rewrite Hdb.
    pose proof (check_player_updates_has_change full row db tm pm (context r))
      as Hch.
    pose proof (check_player_updates_unchanged full row db tm pm (context r))
      as Hun.
    destruct (_check_player_updates full row db tm pm (context r)) as [[u |] c1];
      simpl in *.
    + split_and!; try done. by apply Hch.
    + split_and!; try done. by rewrite Hun.
Qed.

Lemma change_proposals_nonempty_witness :
  let r := reconcile_row false Sample.db_lookup Sample.team_map Sample.pos_map
             fresh_run Sample.jane_den_qb in
  updates r = [] /\ inserts r = []
  /\ Stats.unchanged (stats (context r)) = 1.
Proof.
  destruct (change_proposals_nonempty false [] Sample.db_lookup
              Sample.team_map Sample.pos_map ctx0) as [_ Hrow].
  specialize (Hrow fresh_run Sample.jane_den_qb Sample.stored_den_qb).
  simpl in Hrow. apply Hrow.
  - vm_compute. reflexivity.
  - vm_compute. discriminate.
  - vm_compute. reflexivity.
Defined.

(** ** Counter discipline *)

Lemma check_player_updates_total full row db tm pm c :
  let out := _check_player_updates full row db tm pm c in
  let delta := Stats.total (stats out.2) - Stats.total (stats c) in
  match out.1 with
  | Some _ => 1 <= delta <= 2 /\ (full = false -> delta = 1)
  | None => 0 <= delta <= 2 /\ (full = false -> delta <= 1)
  end.
Proof.
  unfold _check_player_updates, Stats.total.
  repeat (case_match; simplify_eq/=); split; intros; try done; lia.
Qed.

Lemma prepare_player_insert_total row tm pm c :
  Stats.total (stats (_prepare_player_insert row tm pm c).2)
  = Stats.total (stats c) + 1.
Proof.
  unfold _prepare_player_insert, Stats.total.
  repeat (case_match; simplify_eq/=); lia.
Qed.

(** What one diff books, counter by counter. *)
Lemma check_player_updates_counters full row db tm pm c :
  let out := _check_player_updates full row db tm pm c in
  Stats.team_updates (stats out.2)
  = Stats.team_updates (stats c)
    + how_many (carries "realteamid") (option_list out.1)
  /\ Stats.position_updates (stats out.2)
     = Stats.position_updates (stats c)
       + how_many (carries "positionid") (option_list out.1)
  /\ Stats.warnings (stats out.2)
     = Stats.warnings (stats c)
       + (Z.of_nat (length (warnings out.2)) - Z.of_nat (length (warnings c)))
  /\ Stats.unchanged (stats out.2) = Stats.unchanged (stats c)
  /\ Stats.new_players (stats out.2) = Stats.new_players (stats c)
  /\ Stats.errors (stats out.2) = Stats.errors (stats c).
Proof.
  unfold _check_player_updates, how_many, carries.
  repeat (case_match; simplify_eq/=); rewrite ?length_app; simpl;
    split_and!; try done; lia.
Qed.

(** What one insert candidate books: one counter, by one. *)
Lemma prepare_player_insert_counters row tm pm c :
  match (_prepare_player_insert row tm pm c).1 with
  | Some _ => stats (_prepare_player_insert row tm pm c).2
              = stats (incr_new_players c)
  | None => stats (_prepare_player_insert row tm pm c).2 = stats (incr_errors c)
  end.
Proof.
  unfold _prepare_player_insert.
  repeat (case_match; simplify_eq/=); done.
Qed.

(** C6 (as amended).  One pass of the loop body moves the counters as
    follows.  A row without identifier moves none.  An unmatched row moves
    exactly one, by one: [new_players] when a proposal is returned and
    [errors] when it is not.  A matched row moves [team_updates] by one
    when the proposal holds a team change, [position_updates] by one when
    it holds a position change, [warnings] by the number of warnings
    appended and [unchanged] by one when there is no proposal; it leaves
    [new_players] and [errors] alone.  In total it adds between one and
    three, at most two in team-only mode. *)
Theorem counters_per_record full db_lookup tm pm r row :
  let r' := reconcile_row full db_lookup tm pm r row in
  let cell := series_get row "gsis_id" PNone in
  let st := stats (context r) in
  let st' := stats (context r') in
  if Py.isna cell || String.eqb (Py.strip (Py.str cell)) ""
  then st' = st /\ counted r' = counted r
  else
    match db_lookup !! Py.strip (Py.str cell) with
    | None =>
        match (_prepare_player_insert row tm pm (context r)).1 with
        | Some _ => st' = stats (incr_new_players (context r))
        | None => st' = stats (incr_errors (context r))
        end
        /\ counted r' = counted r + 1
    | Some db =>
        let out := _check_player_updates full row db tm pm (context r) in
        Stats.team_updates st'
        = Stats.team_updates st
          + how_many (carries "realteamid") (option_list out.1)
        /\ Stats.position_updates st'
           = Stats.position_updates st
             + how_many (carries "positionid") (option_list out.1)
        /\ Stats.warnings st'
           = Stats.warnings st
             + (Z.of_nat (length (warnings (context r')))
                - Z.of_nat (length (warnings (context r))))
        /\ Stats.unchanged st'
           = Stats.unchanged st + match out.1 with Some _ => 0 | None => 1 end
        /\ Stats.new_players st' = Stats.new_players st
        /\ Stats.errors st' = Stats.errors st
        /\ counted r + 1 <= counted r' <= counted r + 3
        /\ (full = false -> counted r' <= counted r + 2)
    end.
Proof.
  intros r' cell st st'. subst r' st st'. unfold reconcile_row, counted.
  fold cell.
  destruct (Py.isna cell || _); [done |].
  destruct (db_lookup !! _) as [db |].
  - pose proof (check_player_updates_total full row db tm pm (context r)) as Ht.
    destruct (check_player_updates_counters full row db tm pm (context r))
      as (Htu & Hpu & Hw & Hun & Hnp & He).
    destruct (_check_player_updates full row db tm pm (context r)) as [[u |] c1];
      simpl in *.
    + destruct Ht as [Ht Hf].
      split_and!;
        first [done | lia | intros Hfull; apply Hf in Hfull; lia].
    + destruct Ht as [Ht Hf]. unfold Stats.total in *. simpl.
      split_and!;
        first [done | lia | intros Hfull; apply Hf in Hfull; lia].
  - pose proof (prepare_player_insert_total row tm pm (context r)) as Ht.
    pose proof (prepare_player_insert_counters row tm pm (context r)) as Hc.
    by destruct (_prepare_player_insert row tm pm (context r)) as [[i |] c1].
Qed.

(** C6 as stated fails on the second scenario of the specification: in full
    mode a matched row whose team and position both differ adds one to
    [team_updates] and one to [position_updates]. *)
Lemma counters_move_twice :
  let r := reconcile_row true Sample.db_lookup Sample.team_map Sample.pos_map
             fresh_run Sample.jane_kc_rb in
  stats (context r) = Stats.Build_t 1 1 0 0 0 0
  /\ counted r - counted fresh_run = 2
  /\ counted r - counted fresh_run <> 1.
Proof. vm_compute. split_and!; done. Qed.

(** ** Repeated identifiers in the feed *)

Lemma reconcile_from_lists full db_lookup tm pm nfl_df : forall r,
  updates (reconcile_from full db_lookup tm pm r nfl_df)
  = (updates r
     ++ concat (map (fun row =>
                  updates (reconcile_row full db_lookup tm pm fresh_run row))
                nfl_df))%list
  /\ inserts (reconcile_from full db_lookup tm pm r nfl_df)
     = (inserts r
        ++ concat (map (fun row =>
                     inserts (reconcile_row full db_lookup tm pm fresh_run row))
                   nfl_df))%list.
Proof.
  unfold reconcile_from.
  induction nfl_df as [| row rows IH]; intros r; simpl.
  - by rewrite !app_nil_r.
  - destruct (IH (reconcile_row full db_lookup tm pm r row)) as [-> ->].
    rewrite reconcile_row_updates, reconcile_row_inserts.
    by rewrite <- !app_assoc.
Qed.

(** C8 (as amended).  The loop keeps no record of the identifiers it has
    seen: the update list and the insert list of a run are, in feed order,
    the proposals that every row yields when it is reconciled on its own,
    whether or not an earlier row carried the same identifier. *)
Theorem rows_reconciled_independently full nfl_df db_lookup tm pm c :
  let alone row := reconcile_players full [row] db_lookup tm pm ctx0 in
  let r := reconcile_players full nfl_df db_lookup tm pm c in
  updates r = concat (map (fun row => updates (alone row)) nfl_df)
  /\ inserts r = concat (map (fun row => inserts (alone row)) nfl_df).
Proof.
  intros alone r. subst alone r. unfold reconcile_players.
  destruct (reconcile_from_lists full db_lookup tm pm nfl_df
              {| updates := []; inserts := []; context := c |}) as [-> ->].
  done.
Qed.

(** C8 as stated fails: a row repeated in the feed is proposed twice, as an
    update when the store knows the identifier and as an insert when it
    does not; and when two rows with one identifier disagree, the later one
    is proposed although the first one asked for nothing. *)
Lemma duplicates_are_reconciled_again :
  let twice_known :=
    reconcile_players false [Sample.jane_kc_qb; Sample.jane_kc_qb]
      Sample.db_lookup Sample.team_map Sample.pos_map ctx0 in
  let twice_new :=
    reconcile_players false [Sample.jane_kc_qb; Sample.jane_kc_qb]
      ∅ Sample.team_map Sample.pos_map ctx0 in
  let disagree :=
    reconcile_players false [Sample.jane_den_qb; Sample.jane_kc_qb]
      Sample.db_lookup Sample.team_map Sample.pos_map ctx0 in
  (Update.gsis <$> updates twice_known) = ["00-1234"; "00-1234"]
  /\ (Insert.gsis <$> inserts twice_new) = ["00-1234"; "00-1234"]
  /\ Stats.new_players (stats (context twice_new)) = 2
  /\ (new <$> (updates disagree ≫= fun u =>
                 option_list (Update.changes u !! "realteamid"))) = [3].
Proof. vm_compute. split_and!; reflexivity. Qed.

(** ** Jersey numbers *)

(** C7 (as amended).  A returned insert proposal holds the jersey cell of
    the feed row exactly as the row has it, whatever the cell is: nothing
    is filtered when the proposal is built.  The choice is made when the
    statement is written: a cell that is missing ([None] or NaN) gives no
    JERSEYNUMBER column, a non-zero number gives the column with that
    number. *)
Theorem jersey_number_carried_through row tm pm c ins :
  (_prepare_player_insert row tm pm c).1 = Some ins ->
  Insert.jersey_number ins = series_get row "jersey_number" PNone
  /\ (Py.isna (Insert.jersey_number ins) = true ->
      exists columns values,
        insert_columns_values ins = Some (columns, values)
        /\ "JERSEYNUMBER" ∉ columns)
  /\ (forall n, Insert.jersey_number ins = PInt n -> n <> 0 ->
      exists columns values,
        insert_columns_values ins
        = Some ((columns ++ ["JERSEYNUMBER"])%list,
                (values ++ [Py.str (PInt n)])%list)).
Proof.
  intros Hins. split_and!.
  - unfold _prepare_player_insert in Hins.
    repeat (case_match; simplify_eq/=). done.
  - intros Hna. unfold insert_columns_values, jersey_available.
    rewrite Hna, andb_false_r. eexists _, _. split; [done |].
    rewrite !elem_of_cons, elem_of_nil. intros H.
    repeat (destruct H as [H | H]; [discriminate H |]). exact H.
  - intros n Hn Hnz. unfold insert_columns_values, jersey_available.
    rewrite Hn. unfold Py.truthy, Py.isna, py_int.
    apply Z.eqb_neq in Hnz. rewrite Hnz.
    eexists [_; _; _; _; _; _], [_; _; _; _; _; _]. reflexivity.
Qed.

Lemma jersey_number_carried_through_witness :
  let row := <["jersey_number" := PInt 12]> Sample.jane_kc_qb in
  exists ins,
    (_prepare_player_insert row Sample.team_map Sample.pos_map ctx0).1 = Some ins
    /\ Insert.jersey_number ins = PInt 12.
Proof.
  intros row.
  destruct (_prepare_player_insert row Sample.team_map Sample.pos_map ctx0).1
    as [ins |] eqn:Hins; [| vm_compute in Hins; discriminate Hins].
  exists ins. split; [reflexivity |].
  destruct (jersey_number_carried_through row Sample.team_map Sample.pos_map
              ctx0 ins Hins) as [Hj _].
  rewrite Hj. vm_compute. reflexivity.
Defined.

(** C7 as stated fails: a jersey cell that is not a number, or the NaN of
    an empty cell, is part of the proposal all the same. *)
Lemma non_numeric_jersey_in_proposal :
  let lettered := <["jersey_number" := PStr "abc"]> Sample.jane_kc_qb in
  let empty := <["jersey_number" := PNaN]> Sample.jane_kc_qb in
  py_int (PStr "abc") = None
  /\ (Insert.jersey_number
        <$> (_prepare_player_insert lettered Sample.team_map Sample.pos_map ctx0).1)
     = Some (PStr "abc")
  /\ (Insert.jersey_number
        <$> (_prepare_player_insert empty Sample.team_map Sample.pos_map ctx0).1)
     = Some PNaN.
Proof. vm_compute. split_and!; reflexivity. Qed.

(** The remaining two kinds of jersey cell when the statement is written:
    the number [0] is falsy and gets no column, and text that is not a
    number makes [int] raise. *)
Example jersey_zero_and_text :
  let with_jersey v :=
    (_prepare_player_insert (<["jersey_number" := v]> Sample.jane_kc_qb)
       Sample.team_map Sample.pos_map ctx0).1 in
  (Insert.jersey_number <$> with_jersey (PInt 0)) = Some (PInt 0)
  /\ (with_jersey (PInt 0) ≫= insert_columns_values)
     = Some (["FIRSTNAME"; "LASTNAME"; "GSIS"; "REALTEAMID"; "POSITIONID";
              "ISONINJUREDRESERVE"],
             ["'Jane'"; "'Doe'"; "'00-1234'"; "3"; "9"; "0"])
  /\ (with_jersey (PInt 12) ≫= insert_columns_values)
     = Some (["FIRSTNAME"; "LASTNAME"; "GSIS"; "REALTEAMID"; "POSITIONID";
              "ISONINJUREDRESERVE"; "JERSEYNUMBER"],
             ["'Jane'"; "'Doe'"; "'00-1234'"; "3"; "9"; "0"; "12"])
  /\ (with_jersey (PStr "abc") ≫= insert_columns_values) = None.
Proof. vm_compute. split_and!; reflexivity. Qed.

(** ** Escaping of text values *)

Lemma read_quoted_escaped s :
  read_quoted (Py.replace_char "'" "''" s +:+ "'") = Some s.
Proof.
  induction s as [| d s IH]; [reflexivity |].
  simpl. destruct (Ascii.eqb d "'") eqn:Hd.
  - apply Ascii.eqb_eq in Hd as ->.
    change (("''" +:+ Py.replace_char "'" "''" s) +:+ "'")
      with (String "'" (String "'" (Py.replace_char "'" "''" s +:+ "'"))).
    simpl. by rewrite IH.
  - rewrite string_app_cons. simpl. by rewrite Hd, IH.
Qed.

(** C9.  A text value written by the script generator - quotes doubled by
    [_escape_sql], the whole between two quotes - reads back as the value
    it was made from. *)
Theorem escape_round_trip (s : string) :
  read_sql_literal (sql_literal (PStr s)) = Some s.
Proof.
  unfold sql_literal, _escape_sql. simpl. apply read_quoted_escaped.
Qed.

(** * Further properties of the engine and of the script writer *)

(** ** What a diff proposes *)

(** X1.  A team or position entry of a proposal is sound: the code of the
    feed row is non-empty and the mapping resolves it to the proposed
    identifier, which differs from the stored one; the entry records the
    stored identifier and label and the normalised code.  A position entry
    exists in full mode only, and a proposal has no other entries. *)
Theorem proposed_changes_are_sound full row db tm pm c u :
  (_check_player_updates full row db tm pm c).1 = Some u ->
  Update.oid u = OID db
  /\ Update.gsis u = row_id row
  /\ (forall fc, Update.changes u !! "realteamid" = Some fc ->
      norm_code row "latest_team" <> ""
      /\ tm !! norm_code row "latest_team" = Some (new fc)
      /\ differs (new fc) (REALTEAMID db) = true
      /\ fc = {| old := REALTEAMID db; new := new fc;
                 old_abbrev := CURRENT_TEAM db;
                 new_abbrev := norm_code row "latest_team" |})
  /\ (forall fc, Update.changes u !! "positionid" = Some fc ->
      full = true
      /\ norm_code row "position" <> ""
      /\ pm !! norm_code row "position" = Some (new fc)
      /\ differs (new fc) (POSITIONID db) = true
      /\ fc = {| old := POSITIONID db; new := new fc;
                 old_abbrev := CURRENT_POSITION db;
                 new_abbrev := norm_code row "position" |})
  /\ (forall key, is_Some (Update.changes u !! key) ->
      key = "realteamid" \/ key = "positionid").
Proof.
  unfold _check_player_updates, row_id.
  destruct (String.eqb_spec (norm_code row "latest_team") "") as [Ht | Ht];
    destruct (String.eqb_spec (norm_code row "position") "") as [Hp | Hp];
    simpl.
  all: repeat (case_match; simplify_eq/=); intros [= <-]; simpl.
  all: split_and!; try done.
  all: try (intros fc Hfc; simplify_map_eq; by split_and!).
  all: intros key [fc Hfc];
    destruct (decide (key = "realteamid")) as [-> | Hk1]; [by left |];
    destruct (decide (key = "positionid")) as [-> | Hk2]; [by right |];
    by simplify_map_eq.
Qed.

Lemma proposed_changes_are_sound_witness :
  exists u,
    (_check_player_updates true Sample.jane_kc_rb Sample.stored_den_qb
       Sample.team_map Sample.pos_map ctx0).1 = Some u
    /\ Update.oid u = PInt 1
    /\ Update.gsis u = "00-1234".
Proof.
  destruct (_check_player_updates true Sample.jane_kc_rb Sample.stored_den_qb
              Sample.team_map Sample.pos_map ctx0).1 as [u |] eqn:Hu;
    [| vm_compute in Hu; discriminate Hu].
  exists u. split; [reflexivity |].
  destruct (proposed_changes_are_sound true Sample.jane_kc_rb
              Sample.stored_den_qb Sample.team_map Sample.pos_map ctx0 u Hu)
    as (Hoid & Hgsis & _).
  split; [exact Hoid |]. rewrite Hgsis. vm_compute. reflexivity.
Defined.

(** X2.  The diff misses nothing it can resolve: a non-empty team code that
    the mapping resolves to an identifier other than the stored one yields
    a proposal with the team entry, and in full mode the same holds for the
    position code. *)
Theorem differing_codes_are_proposed full row db tm pm c :
  let out := _check_player_updates full row db tm pm c in
  (forall t,
     norm_code row "latest_team" <> "" ->
     tm !! norm_code row "latest_team" = Some t ->
     differs t (REALTEAMID db) = true ->
     exists u, out.1 = Some u
       /\ Update.changes u !! "realteamid"
          = Some {| old := REALTEAMID db; new := t;
                    old_abbrev := CURRENT_TEAM db;
                    new_abbrev := norm_code row "latest_team" |})
  /\ (forall p,
        full = true ->
        norm_code row "position" <> "" ->
        pm !! norm_code row "position" = Some p ->
        differs p (POSITIONID db) = true ->
        exists u, out.1 = Some u
          /\ Update.changes u !! "positionid"
             = Some {| old := POSITIONID db; new := p;
                       old_abbrev := CURRENT_POSITION db;
                       new_abbrev := norm_code row "position" |}).
Proof.
  intros out. subst out. unfold _check_player_updates. split.
  - intros t Hne%String.eqb_neq Hres Hdiff. rewrite Hne, Hres, Hdiff. simpl.
    repeat (case_match; simplify_eq/=); eexists; split; try done;
      by simplify_map_eq.
  - intros p -> Hne%String.eqb_neq Hres Hdiff. rewrite Hne, Hres, Hdiff.
    repeat (case_match; simplify_eq/=); eexists; split; try done;
      by simplify_map_eq.
Qed.

Lemma differing_codes_are_proposed_witness :
  exists u,
    (_check_player_updates false Sample.jane_kc_qb Sample.stored_den_qb
       Sample.team_map Sample.pos_map ctx0).1 = Some u
    /\ (new <$> Update.changes u !! "realteamid") = Some 3.
Proof.
  destruct (differing_codes_are_proposed false Sample.jane_kc_qb
              Sample.stored_den_qb Sample.team_map Sample.pos_map ctx0)
    as [Hteam _].
  destruct (Hteam 3) as (u & Hu & Hfc).
  - vm_compute. discriminate.
  - vm_compute. reflexivity.
  - reflexivity.
  - exists u. split; [exact Hu |]. rewrite Hfc. reflexivity.
Defined.

(** ** What a run lists *)

Lemma text_field_row_id row :
  Py.isna (series_get row "gsis_id" PNone) = false ->
  text_field row "gsis_id" = row_id row.
Proof.
  unfold text_field, row_id, series_get.
  by destruct (row !! "gsis_id").
Qed.

Lemma check_player_updates_target full row db tm pm c u :
  (_check_player_updates full row db tm pm c).1 = Some u ->
  Update.oid u = OID db /\ Update.gsis u = row_id row.
Proof.
  unfold _check_player_updates, row_id.
  repeat (case_match; simplify_eq/=); by intros [= <-].
Qed.

Lemma prepare_player_insert_gsis row tm pm c i :
  (_prepare_player_insert row tm pm c).1 = Some i ->
  Insert.gsis i = text_field row "gsis_id".
Proof.
  unfold _prepare_player_insert.
  repeat (case_match; simplify_eq/=); by intros [= <-].
Qed.

Lemma reconcile_from_Forall (PU : Update.t -> Prop) (PI : Insert.t -> Prop)
    full db_lookup tm pm :
  (forall r row,
     Forall PU (updates r) -> Forall PI (inserts r) ->
     Forall PU (updates (reconcile_row full db_lookup tm pm r row))
     /\ Forall PI (inserts (reconcile_row full db_lookup tm pm r row))) ->
  forall nfl_df r,
    Forall PU (updates r) -> Forall PI (inserts r) ->
    Forall PU (updates (reconcile_from full db_lookup tm pm r nfl_df))
    /\ Forall PI (inserts (reconcile_from full db_lookup tm pm r nfl_df)).
Proof.
  intros Hrow. unfold reconcile_from.
  induction nfl_df as [| row rows IH]; intros r HU HI; simpl; [done |].
  destruct (Hrow r row HU HI) as [HU' HI']. by apply IH.
Qed.

(** X3.  Proposals follow the match: every update of a run is addressed to
    the store row found under the identifier of its feed row and carries
    that row's OID, and every insert of a run has a non-empty identifier
    that the store does not know.  No row is both updated and inserted. *)
Theorem proposals_follow_the_match full nfl_df db_lookup tm pm c :
  let r := reconcile_players full nfl_df db_lookup tm pm c in
  Forall (fun u => Update.gsis u <> ""
                   /\ exists db, db_lookup !! Update.gsis u = Some db
                                 /\ Update.oid u = OID db)
    (updates r)
  /\ Forall (fun i => Insert.gsis i <> "" /\ db_lookup !! Insert.gsis i = None)
       (inserts r).
Proof.
  intros r. subst r. unfold reconcile_players.
  apply reconcile_from_Forall; [| by apply Forall_nil | by apply Forall_nil].
  intros r row HU HI. unfold reconcile_row.
  destruct (Py.isna (series_get row "gsis_id" PNone)) eqn:Hna; [done |].
  destruct (String.eqb_spec (Py.strip (Py.str (series_get row "gsis_id" PNone))) "")
    as [| Hne]; [done |].
  simpl. fold (row_id row) in Hne |- *.
  destruct (db_lookup !! row_id row) as [db |] eqn:Hdb.
  - pose proof (check_player_updates_target full row db tm pm (context r)) as Hs.
    destruct (_check_player_updates full row db tm pm (context r)) as [[u |] c1];
      simpl; [| done].
    destruct (Hs u eq_refl) as (Hoid & Hgsis).
    split; [| done]. apply Forall_app. split; [done |].
    apply Forall_singleton. rewrite Hgsis. split; [done |]. by exists db.
  - pose proof (prepare_player_insert_gsis row tm pm (context r)) as Hi.
    destruct (_prepare_player_insert row tm pm (context r)) as [[i |] c1];
      simpl in *; [| done].
    split; [done |]. apply Forall_app. split; [done |].
    apply Forall_singleton. rewrite (Hi i eq_refl), text_field_row_id by done.
    done.
Qed.

(** ** The ledger of a run *)

(** What one diff does to the context, counter by counter. *)
Lemma check_player_updates_ledger full row db tm pm c :
  let out := _check_player_updates full row db tm pm c in
  errors out.2 = errors c
  /\ Stats.errors (stats out.2) = Stats.errors (stats c)
  /\ Stats.new_players (stats out.2) = Stats.new_players (stats c)
  /\ Stats.unchanged (stats out.2) = Stats.unchanged (stats c)
  /\ (exists w, warnings out.2 = (warnings c ++ w)%list
        /\ Stats.warnings (stats out.2)
           = Stats.warnings (stats c) + Z.of_nat (length w))
  /\ Stats.team_updates (stats out.2)
     = Stats.team_updates (stats c)
       + how_many (carries "realteamid") (option_list out.1)
  /\ Stats.position_updates (stats out.2)
     = Stats.position_updates (stats c)
       + how_many (carries "positionid") (option_list out.1).
Proof.
  unfold _check_player_updates, how_many, carries.
  repeat (case_match; simplify_eq/=); split_and!; try done; try lia.
  all: first [ by (exists []; rewrite app_nil_r; split; [done | simpl; lia])
             | by (eexists [_]; split; [done | simpl; lia])
             | by (eexists [_; _]; rewrite <- app_assoc; split;
                   [done | simpl; lia]) ].
Qed.

(** What one insert candidate does to the context. *)
Lemma prepare_player_insert_ledger row tm pm c :
  let out := _prepare_player_insert row tm pm c in
  warnings out.2 = warnings c
  /\ Stats.warnings (stats out.2) = Stats.warnings (stats c)
  /\ Stats.unchanged (stats out.2) = Stats.unchanged (stats c)
  /\ Stats.team_updates (stats out.2) = Stats.team_updates (stats c)
  /\ Stats.position_updates (stats out.2) = Stats.position_updates (stats c)
  /\ match out.1 with
     | Some _ =>
         errors out.2 = errors c
         /\ Stats.errors (stats out.2) = Stats.errors (stats c)
         /\ Stats.new_players (stats out.2) = Stats.new_players (stats c) + 1
     | None =>
         (exists e, errors out.2 = (errors c ++ [e])%list)
         /\ Stats.errors (stats out.2) = Stats.errors (stats c) + 1
         /\ Stats.new_players (stats out.2) = Stats.new_players (stats c)
     end.
Proof.
  unfold _prepare_player_insert.
  repeat (case_match; simplify_eq/=); split_and!; try done; by eexists.
Qed.

Lemma how_many_app {A} (f : A -> bool) l1 l2 :
  how_many f (l1 ++ l2) = how_many f l1 + how_many f l2.
Proof. unfold how_many. rewrite List.filter_app, length_app. lia. Qed.

Lemma how_many_cons {A} (f : A -> bool) x l :
  how_many f (x :: l) = (if f x then 1 else 0) + how_many f l.
Proof. unfold how_many. simpl. destruct (f x); simpl; lia. Qed.

Lemma ledger_nil db_lookup r : ledger db_lookup [] r r.
Proof.
  exists [], [], [], []. rewrite !app_nil_r. unfold how_many. simpl.
  split_and!; try done; lia.
Qed.

Lemma ledger_step db_lookup row rows r r1 r2 :
  ledger db_lookup [row] r r1 -> ledger db_lookup rows r1 r2 ->
  ledger db_lookup (row :: rows) r r2.
Proof.
  intros (us & ins & es & ws & Hu & Hi & He & Hw & H1 & H2 & H3 & H4 & H5 & H6 & H7).
  intros (us' & ins' & es' & ws' & Hu' & Hi' & He' & Hw' & H1' & H2' & H3' & H4'
          & H5' & H6' & H7').
  exists (us ++ us')%list, (ins ++ ins')%list, (es ++ es')%list, (ws ++ ws')%list.
  rewrite Hu', Hi', He', Hw', Hu, Hi, He, Hw, <- !app_assoc.
  rewrite !how_many_app, !length_app, !Nat2Z.inj_add.
  rewrite (how_many_cons (is_matched db_lookup) row rows),
    (how_many_cons (is_unmatched db_lookup) row rows).
  rewrite (how_many_cons (is_matched db_lookup) row []) in H1.
  rewrite (how_many_cons (is_unmatched db_lookup) row []) in H2.
  unfold how_many at 1 in H1. unfold how_many at 1 in H2. simpl in H1, H2.
  split_and!; try done; lia.
Qed.

Lemma reconcile_row_ledger full db_lookup tm pm r row :
  ledger db_lookup [row] r (reconcile_row full db_lookup tm pm r row).
Proof.
  unfold ledger, reconcile_row, is_matched, is_unmatched, has_id, row_id.
  rewrite !how_many_cons. unfold how_many at 1 2. simpl.
  destruct (Py.isna _ || _); simpl.
  { exists [], [], [], []. rewrite !app_nil_r. unfold how_many. simpl.
    split_and!; try done; lia. }
  destruct (db_lookup !! _) as [db |] eqn:Hdb.
  - rewrite bool_decide_true, bool_decide_false by (by eauto || by intros [??]).
    destruct (check_player_updates_ledger full row db tm pm (context r))
      as (He & Hse & Hnp & Hun & (ws & Hw & Hsw) & Htu & Hpu).
    destruct (_check_player_updates full row db tm pm (context r)) as [[u |] c1];
      simpl in *.
    + exists [u], [], [], ws. rewrite !app_nil_r. simpl.
      split_and!; try done; lia.
    + exists [], [], [], ws. rewrite !app_nil_r. simpl.
      split_and!; try done; lia.
  - rewrite bool_decide_false, bool_decide_true by (done || by intros [??]).
    destruct (prepare_player_insert_ledger row tm pm (context r))
      as (Hw & Hsw & Hun & Htu & Hpu & Hres).
    destruct (_prepare_player_insert row tm pm (context r)) as [[i |] c1];
      simpl in *.
    + destruct Hres as (He & Hse & Hnp).
      exists [], [i], [], []. rewrite !app_nil_r. unfold how_many. simpl.
      split_and!; try done; lia.
    + destruct Hres as ((e & He) & Hse & Hnp).
      exists [], [], [e], []. rewrite !app_nil_r. unfold how_many. simpl.
      split_and!; try done; lia.
Qed.

Lemma reconcile_from_ledger full db_lookup tm pm nfl_df : forall r,
  ledger db_lookup nfl_df r (reconcile_from full db_lookup tm pm r nfl_df).
Proof.
  unfold reconcile_from.
  induction nfl_df as [| row rows IH]; intros r; simpl.
  - apply ledger_nil.
  - eapply ledger_step; [apply reconcile_row_ledger | apply IH].
Qed.

(** X4.  The counters of a run agree with what the run lists: [new_players]
    grows by the number of inserts, [errors] and [warnings] by the number of
    messages appended to their lists (earlier messages stay in place),
    [team_updates] and [position_updates] by the number of proposals that
    hold a team entry and a position entry. *)
Theorem counters_agree_with_lists full nfl_df db_lookup tm pm c :
  let r := reconcile_players full nfl_df db_lookup tm pm c in
  Stats.new_players (stats (context r))
  = Stats.new_players (stats c) + Z.of_nat (length (inserts r))
  /\ Stats.team_updates (stats (context r))
     = Stats.team_updates (stats c) + how_many (carries "realteamid") (updates r)
  /\ Stats.position_updates (stats (context r))
     = Stats.position_updates (stats c)
       + how_many (carries "positionid") (updates r)
  /\ (exists es, errors (context r) = (errors c ++ es)%list
        /\ Stats.errors (stats (context r))
           = Stats.errors (stats c) + Z.of_nat (length es))
  /\ (exists ws, warnings (context r) = (warnings c ++ ws)%list
        /\ Stats.warnings (stats (context r))
           = Stats.warnings (stats c) + Z.of_nat (length ws)).
Proof.
  intros r. subst r. unfold reconcile_players.
  destruct (reconcile_from_ledger full db_lookup tm pm nfl_df
              {| updates := []; inserts := []; context := c |})
    as (us & ins & es & ws & Hu & Hi & He & Hw & _ & _ & H3 & H4 & H5 & H6 & H7).
  simpl in *. rewrite Hu, Hi. split_and!; try done; by eauto.
Qed.

(** X5.  Every feed row with an identifier is accounted for exactly once:
    the rows that the store knows are the updates plus the increase of
    [unchanged], and the rows that it does not know are the inserts plus
    the increase of [errors]. *)
Theorem identified_rows_are_accounted_for full nfl_df db_lookup tm pm c :
  let r := reconcile_players full nfl_df db_lookup tm pm c in
  Z.of_nat (length (updates r))
  + (Stats.unchanged (stats (context r)) - Stats.unchanged (stats c))
  = how_many (is_matched db_lookup) nfl_df
  /\ Z.of_nat (length (inserts r))
     + (Stats.errors (stats (context r)) - Stats.errors (stats c))
     = how_many (is_unmatched db_lookup) nfl_df.
Proof.
  intros r. subst r. unfold reconcile_players.
  destruct (reconcile_from_ledger full db_lookup tm pm nfl_df
              {| updates := []; inserts := []; context := c |})
    as (us & ins & es & ws & Hu & Hi & He & Hw & H1 & H2 & H3 & H4 & _).
  simpl in *. rewrite Hu, Hi. split; lia.
Qed.

(** X6.  Rows without identifier - an absent, [None] or NaN cell, or text
    that is blank once trimmed - leave no trace: dropping them from the
    feed changes neither the lists nor the context of the run. *)
Theorem rows_without_id_leave_no_trace full nfl_df db_lookup tm pm c :
  reconcile_players full (List.filter has_id nfl_df) db_lookup tm pm c
  = reconcile_players full nfl_df db_lookup tm pm c.
Proof.
  unfold reconcile_players, reconcile_from.
  generalize {| updates := []; inserts := []; context := c |}.
  induction nfl_df as [| row rows IH]; intros r; simpl; [done |].
  destruct (has_id row) eqn:Hid; simpl; rewrite IH; [done |].
  f_equal. unfold reconcile_row. unfold has_id, row_id in Hid.
  apply negb_false_iff in Hid. by rewrite Hid.
Qed.

Lemma check_player_updates_team_only row db tm pm c u :
  (_check_player_updates false row db tm pm c).1 = Some u ->
  exists fc, Update.changes u = {["realteamid" := fc]}.
Proof.
  unfold _check_player_updates.
  repeat (case_match; simplify_eq/=); intros [= <-]; simpl; by eexists.
Qed.

(** X7.  A run in team-only mode proposes team changes and nothing else:
    the change set of every update is the single team entry,
    [position_updates] keeps its value and [team_updates] grows by the
    number of updates. *)
Theorem team_only_run_proposes_teams nfl_df db_lookup tm pm c :
  let r := reconcile_players false nfl_df db_lookup tm pm c in
  Forall (fun u => exists fc, Update.changes u = {["realteamid" := fc]}) (updates r)
  /\ Stats.position_updates (stats (context r)) = Stats.position_updates (stats c)
  /\ Stats.team_updates (stats (context r))
     = Stats.team_updates (stats c) + Z.of_nat (length (updates r)).
Proof.
  intros r.
  assert (Hall : Forall (fun u => exists fc, Update.changes u = {["realteamid" := fc]})
                   (updates r)).
  { apply reconcile_from_updates_Forall; [| by apply Forall_nil].
    intros row db c' u. apply check_player_updates_team_only. }
  destruct (reconcile_from_ledger false db_lookup tm pm nfl_df
              {| updates := []; inserts := []; context := c |})
    as (us & ins & es & ws & Hu & _ & _ & _ & _ & _ & _ & _ & _ & H6 & H7).
  fold (reconcile_players false nfl_df db_lookup tm pm c) in Hu, H6, H7.
  fold r in Hu, H6, H7. simpl in Hu, H6, H7. rewrite <- Hu in H6, H7.
  split; [done |]. rewrite H6, H7.
  clear -Hall. unfold how_many.
  induction Hall as [| u l [fc Hfc] _ IH]; simpl; [lia |].
  assert (Ht : carries "realteamid" u = true).
  { unfold carries. rewrite Hfc, lookup_singleton_eq. by apply bool_decide_true. }
  assert (Hp : carries "positionid" u = false).
  { unfold carries. rewrite Hfc, lookup_singleton_ne by done.
    apply bool_decide_false. by intros [??]. }
  rewrite Ht, Hp. simpl. lia.
Qed.

(** ** UPDATE statements *)

Lemma update_clauses_empty u :
  (update_clauses u).1 = [] <-> ~ has_field_change u.
Proof.
  unfold update_clauses, has_field_change.
  destruct (Update.changes u !! "realteamid") as [ft |],
    (Update.changes u !! "positionid") as [fp |]; simpl; split; try done.
  all: try (intros H; exfalso; apply H; by eauto).
  intros _ [[? ?] | [? ?]]; done.
Qed.

(** X8.  An UPDATE statement has an empty SET list exactly when its
    proposal has no field change, and one comment for each SET clause.
    The updates of a run never have an empty SET list, and in team-only
    mode the list is the single REALTEAMID clause. *)
Theorem update_statements_set_something nfl_df db_lookup tm pm c :
  (forall u,
     ((update_clauses u).1 = [] <-> ~ has_field_change u)
     /\ length (update_clauses u).2 = length (update_clauses u).1)
  /\ (forall full,
        Forall (fun u => (update_clauses u).1 <> [])
          (updates (reconcile_players full nfl_df db_lookup tm pm c)))
  /\ Forall (fun u => exists fc,
                Update.changes u !! "realteamid" = Some fc
                /\ (update_clauses u).1
                   = ["REALTEAMID = " +:+ Py.str (PInt (new fc))])
       (updates (reconcile_players false nfl_df db_lookup tm pm c)).
Proof.
  split_and!.
  - intros u. split; [apply update_clauses_empty |].
    unfold update_clauses.
    by destruct (Update.changes u !! "realteamid"),
      (Update.changes u !! "positionid").
  - intros full. apply reconcile_from_updates_Forall; [| by apply Forall_nil].
    intros row db c' u Hu. rewrite update_clauses_empty.
    intros Hno. apply Hno.
    by apply (check_player_updates_has_change full row db tm pm c').
  - apply reconcile_from_updates_Forall; [| by apply Forall_nil].
    intros row db c' u Hu.
    destruct (check_player_updates_team_only row db tm pm c' u Hu) as [fc Hfc].
    exists fc. unfold update_clauses. rewrite Hfc.
    rewrite lookup_singleton_eq, lookup_singleton_ne by done. done.
Qed.

(** ** Identifiers and cells at the edge *)

(** X9.  The insert path treats the identifier [0] like an absent code: an
    unmatched row with every required field present whose team code maps
    to [0] is rejected with the unknown-team error, and one whose team is
    usable but whose position code maps to [0] with the unknown-position
    error. *)
Theorem zero_identifier_is_rejected_on_insert row tm pm c :
  required_present row ->
  (tm !! norm_code row "latest_team" = Some 0 ->
   _prepare_player_insert row tm pm c
   = (None, fail (unknown_team_error (norm_code row "latest_team")
                    (text_field row "gsis_id")) c))
  /\ (forall t, tm !! norm_code row "latest_team" = Some t -> t <> 0 ->
      pm !! norm_code row "position" = Some 0 ->
      _prepare_player_insert row tm pm c
      = (None, fail (unknown_position_error (norm_code row "position")
                       (text_field row "gsis_id")) c)).
Proof.
  unfold required_present, _prepare_player_insert. intros ->. simpl. split.
  - by intros ->.
  - intros t -> Hnz%Z.eqb_neq ->. simpl. by rewrite Hnz.
Qed.

Lemma zero_identifier_is_rejected_on_insert_witness :
  (_prepare_player_insert Sample.jane_kc_qb (<["KC" := 0]> Sample.team_map)
     Sample.pos_map ctx0)
  = (None, fail "Cannot insert player - unknown team 'KC': 00-1234" ctx0).
Proof.
  destruct (zero_identifier_is_rejected_on_insert Sample.jane_kc_qb
              (<["KC" := 0]> Sample.team_map) Sample.pos_map ctx0) as [Hteam _].
  - vm_compute. reflexivity.
  - rewrite Hteam; [vm_compute; reflexivity |]. vm_compute. reflexivity.
Defined.

Lemma strip_na_text v : Py.isna v = true -> Py.strip (Py.str v) = Py.str v.
Proof. by destruct v. Qed.

(** X10.  The required-field test looks at the text of a cell, and the
    text of a [None] or NaN cell is not empty: a row that is insertable
    apart from such a first-name cell is inserted, with the text [None] or
    [nan] as the first name. *)
Theorem na_first_name_is_inserted row tm pm c v t p :
  row !! "first_name" = Some v ->
  Py.isna v = true ->
  text_field row "gsis_id" <> "" ->
  text_field row "last_name" <> "" ->
  norm_code row "latest_team" <> "" ->
  norm_code row "position" <> "" ->
  usable_id (tm !! norm_code row "latest_team") = Some t ->
  usable_id (pm !! norm_code row "position") = Some p ->
  exists ins,
    _prepare_player_insert row tm pm c = (Some ins, incr_new_players c)
    /\ Insert.firstname ins = Py.str v
    /\ Insert.realteamid ins = t
    /\ Insert.positionid ins = p.
Proof.
  intros Hcell Hna Hg Hl Ht Hp Htm Hpm.
  assert (Hfirst : text_field row "first_name" = Py.str v).
  { unfold text_field, series_get. rewrite Hcell. simpl. by apply strip_na_text. }
  assert (Hf : text_field row "first_name" <> "").
  { rewrite Hfirst. by destruct v. }
  unfold _prepare_player_insert, missing_fields.
  apply String.eqb_neq in Hg, Hf, Hl, Ht, Hp.
  rewrite Hg, Hf, Hl, Ht, Hp, Htm, Hpm. simpl. eexists. split; [done |].
  simpl. by rewrite Hfirst.
Qed.

Lemma na_first_name_is_inserted_witness :
  exists ins,
    (_prepare_player_insert (<["first_name" := PNaN]> Sample.jane_kc_qb)
       Sample.team_map Sample.pos_map ctx0).1 = Some ins
    /\ Insert.firstname ins = "nan".
Proof.
  destruct (na_first_name_is_inserted (<["first_name" := PNaN]> Sample.jane_kc_qb)
              Sample.team_map Sample.pos_map ctx0 PNaN 3 9)
    as (ins & Hins & Hfirst & _).
  - vm_compute. reflexivity.
  - reflexivity.
  - vm_compute. discriminate.
  - vm_compute. discriminate.
  - vm_compute. discriminate.
  - vm_compute. discriminate.
  - vm_compute. reflexivity.
  - vm_compute. reflexivity.
  - exists ins. rewrite Hins. split; [reflexivity | exact Hfirst].
Defined.

(** ** INSERT statements *)

Lemma string_length_app s t :
  String.length (s +:+ t) = (String.length s + String.length t)%nat.
Proof.
  induction s as [| c s IH]; [done |]. rewrite string_app_cons. simpl. by rewrite IH.
Qed.

(** Reading consumes the closing quote: the text read is shorter than the
    text it is read from. *)
Lemma read_quoted_shorter n : forall s r,
  (String.length s <= n)%nat ->
  read_quoted s = Some r -> (String.length r < String.length s)%nat.
Proof.
  induction n as [| n IH]; intros s r Hlen Hread.
  - destruct s; [done | simpl in Hlen; lia].
  - destruct s as [| c s]; [done |]. simpl in Hread, Hlen.
    destruct (Ascii.eqb c "'").
    + destruct s as [| d s]; [by simplify_eq/=; lia |].
      destruct (Ascii.eqb d "'"); [| done].
      destruct (read_quoted s) as [r' |] eqn:Hr'; simplify_eq/=.
      apply IH in Hr'; simpl in *; lia.
    + destruct (read_quoted s) as [r' |] eqn:Hr'; simplify_eq/=.
      apply IH in Hr'; simpl in *; lia.
Qed.

Lemma read_quoted_plain g :
  quote_free g = true -> read_quoted (g +:+ "'") = Some g.
Proof.
  induction g as [| c g IH]; [done |].
  rewrite string_app_cons. simpl.
  intros [Hc Hg]%andb_true_iff. apply negb_true_iff in Hc.
  by rewrite Hc, IH.
Qed.

Lemma read_quoted_same g :
  read_quoted (g +:+ "'") = Some g -> quote_free g = true.
Proof.
  induction g as [| c g IH]; [done |].
  rewrite string_app_cons. simpl.
  destruct (Ascii.eqb c "'") eqn:Hc; simpl.
  - destruct g as [| d g]; [done |]. rewrite string_app_cons.
    destruct (Ascii.eqb d "'"); [| done].
    destruct (read_quoted (g +:+ "'")) as [r |] eqn:Hr; [| done].
    intros [= _ ->]. exfalso.
    apply (read_quoted_shorter _ _ _ (Nat.le_refl _)) in Hr.
    rewrite string_length_app in Hr. simpl in Hr. lia.
  - destruct (read_quoted (g +:+ "'")) as [r |] eqn:Hr; [| done].
    intros [= ->]. by apply IH.
Qed.

(** X11.  Of the three text values of an INSERT statement the first name
    and the last name always read back as the proposal has them; the
    identifier is written between quotes without escaping, so that it reads
    back as itself exactly when it holds no single quote. *)
Theorem insert_text_values_read_back ins columns values :
  insert_columns_values ins = Some (columns, values) ->
  (values !! 0%nat ≫= read_sql_literal) = Some (Insert.firstname ins)
  /\ (values !! 1%nat ≫= read_sql_literal) = Some (Insert.lastname ins)
  /\ ((values !! 2%nat ≫= read_sql_literal) = Some (Insert.gsis ins)
      <-> quote_free (Insert.gsis ins) = true).
Proof.
  unfold insert_columns_values.
  repeat case_match; intros [= <- <-]; simpl.
  all: change ("" +:+ ?x) with x.
  all: unfold _escape_sql; simpl; rewrite !read_quoted_escaped.
  all: split_and!; try done; split;
    [apply read_quoted_same | apply read_quoted_plain].
Qed.

Lemma insert_text_values_read_back_witness :
  let ins := {| Insert.gsis := "00-1'34"; Insert.firstname := "Pat";
                Insert.lastname := "O'Neil"; Insert.realteamid := 3;
                Insert.positionid := 9; Insert.jersey_number := PNaN;
                Insert.display_name := PStr "Pat O'Neil" |} in
  exists columns values,
    insert_columns_values ins = Some (columns, values)
    /\ (values !! 1%nat ≫= read_sql_literal) = Some "O'Neil"
    /\ (values !! 2%nat ≫= read_sql_literal) <> Some "00-1'34".
Proof.
  intros ins.
  destruct (insert_columns_values ins) as [[columns values] |] eqn:Hcv;
    [| vm_compute in Hcv; discriminate Hcv].
  exists columns, values. split; [reflexivity |].
  destruct (insert_text_values_read_back ins columns values Hcv)
    as (_ & Hlast & Hid).
  split; [exact Hlast |].
  intros Hsame. apply Hid in Hsame. vm_compute in Hsame. discriminate Hsame.
Defined.

(** X12.  Building the column and value lists of an INSERT statement fails
    in two cases only: the jersey cell is non-empty text that [int] does not
    accept, or it is an infinite float, on which [int] overflows.  When it
    succeeds there are as many values as columns: six, or seven with the
    jersey number. *)
Theorem insert_values_fail_on_jersey_only ins :
  (insert_columns_values ins = None
   <-> (exists s, Insert.jersey_number ins = PStr s /\ s <> ""
          /\ py_int (PStr s) = None)
       \/ (exists negative, Insert.jersey_number ins = PInf negative))
  /\ (forall columns values,
        insert_columns_values ins = Some (columns, values) ->
        length columns = length values
        /\ (length columns = 6%nat \/ length columns = 7%nat)).
Proof.
  unfold insert_columns_values, jersey_available. split.
  - destruct (Insert.jersey_number ins) as [| | s | z | negative] eqn:Hj.
    + simpl. split; [done |]. by intros [(s & ? & _) | (b & ?)].
    + simpl. split; [done |]. by intros [(s & ? & _) | (b & ?)].
    + remember (py_int (PStr s)) as o eqn:Ho. unfold Py.truthy, Py.isna.
      destruct (String.eqb_spec s "") as [-> | Hs]; simpl.
      * split; [done |]. by intros [(s & [= <-] & ? & _) | (b & ?)].
      * destruct o as [n |].
        -- split; [done |]. intros [(s' & Heq & _ & Hnone) | (b & ?)]; [| done].
           injection Heq as <-. change (py_int (PStr s) = None) in Hnone.
           rewrite <- Ho in Hnone. done.
        -- split; [| done]. intros _. left. by exists s.
    + unfold Py.truthy, Py.isna, py_int.
      destruct (Z.eqb z 0); simpl;
        (split; [done |]; by intros [(s & ? & _) | (b & ?)]).
    + simpl. split; [| done]. intros _. right. by exists negative.
  - intros columns values. repeat case_match; intros [= <- <-]; simpl; auto.
Qed.

Lemma insert_values_fail_on_jersey_only_witness :
  let ins := {| Insert.gsis := "00-1234"; Insert.firstname := "Jane";
                Insert.lastname := "Doe"; Insert.realteamid := 3;
                Insert.positionid := 9; Insert.jersey_number := PInt 12;
                Insert.display_name := PStr "Jane Doe" |} in
  let lost := {| Insert.gsis := "00-1234"; Insert.firstname := "Jane";
                 Insert.lastname := "Doe"; Insert.realteamid := 3;
                 Insert.positionid := 9; Insert.jersey_number := PInf false;
                 Insert.display_name := PStr "Jane Doe" |} in
  (exists columns values,
     insert_columns_values ins = Some (columns, values)
     /\ length columns = length values)
  /\ insert_columns_values lost = None.
Proof.
  intros ins lost. split.
  - destruct (insert_columns_values ins) as [[columns values] |] eqn:Hcv;
      [| vm_compute in Hcv; discriminate Hcv].
    exists columns, values. split; [reflexivity |].
    destruct (insert_values_fail_on_jersey_only ins) as [_ Hlen].
    destruct (Hlen columns values Hcv) as [Heq _]. exact Heq.
  - destruct (insert_values_fail_on_jersey_only lost) as [Hfail _].
    apply Hfail. right. exists false. reflexivity.
Defined.

(** ** The script as a whole *)

Lemma inserts_writes_all schema l :
  Forall (fun i => is_Some (insert_columns_values i)) l ->
  inserts_writes schema l
  = (concat (map (fun i => (insert_writes schema i).1) l), true).
Proof.
  induction 1 as [| i l [[columns values] Hi] _ IH]; [done |].
  simpl. unfold insert_writes at 1 2. rewrite Hi, IH. done.
Qed.

Lemma inserts_writes_stop schema done bad rest :
  Forall (fun i => is_Some (insert_columns_values i)) done ->
  insert_columns_values bad = None ->
  inserts_writes schema (done ++ bad :: rest)
  = ((concat (map (fun i => (insert_writes schema i).1) done)
      ++ (insert_writes schema bad).1)%list, false).
Proof.
  intros Hdone Hbad.
  induction Hdone as [| i l [[columns values] Hi] _ IH]; simpl.
  - unfold insert_writes. by rewrite Hbad.
  - unfold insert_writes at 1 2. rewrite Hi, IH. done.
Qed.

Lemma inserts_writes_returns schema l :
  (inserts_writes schema l).2 = true ->
  Forall (fun i => is_Some (insert_columns_values i)) l.
Proof.
  induction l as [| i l IH]; [by intros; apply Forall_nil |].
  simpl. unfold insert_writes.
  destruct (insert_columns_values i) as [[columns values] |] eqn:Hi; [| done].
  destruct (inserts_writes schema l) as [w ok]. simpl. intros ->.
  apply Forall_cons. split; [by eauto | by apply IH].
Qed.

(** X13.  [generate_sql_script] returns exactly when the column and value
    lists of every insert can be built, and then the last five texts it
    writes are the footer with the commented-out COMMIT. *)
Theorem script_is_completed full schema now updates inserts :
  let out := generate_sql_script full schema now updates inserts in
  (out.2 = true <-> Forall (fun i => is_Some (insert_columns_values i)) inserts)
  /\ (out.2 = true -> exists body, out.1 = (body ++ script_footer)%list).
Proof.
  intros out. subst out. unfold generate_sql_script.
  assert (Hok : (inserts_section schema inserts).2
                = (inserts_writes schema inserts).2).
  { unfold inserts_section. destruct inserts; [done |].
    by destruct (inserts_writes schema _). }
  destruct (inserts_section schema inserts) as [insert_part ok].
  simpl in Hok. subst ok. split.
  - destruct (inserts_writes schema inserts).2 eqn:Hw.
    + split; [| done]. intros _. by apply (inserts_writes_returns schema).
    + split; [done |]. intros HF.
      rewrite (inserts_writes_all schema inserts HF) in Hw. done.
  - destruct (inserts_writes schema inserts).2; [| done]. intros _.
    exists (script_header full now updates inserts
            ++ updates_section schema updates ++ insert_part)%list.
    by rewrite <- !app_assoc.
Qed.

Lemma script_is_completed_witness :
  exists body,
    (generate_sql_script false "FF" "now" [] []).1 = (body ++ script_footer)%list.
Proof.
  destruct (script_is_completed false "FF" "now" [] []) as [_ Hfoot].
  apply Hfoot. vm_compute. reflexivity.
Defined.

(** X14.  When the jersey cell of an insert makes [int] raise, the script
    is left unfinished: what has been written is the header, the update
    section, the banner of the insert section, the statements of the
    inserts before the offending one and the comment line of the offending
    one - neither the later inserts nor the footer. *)
Theorem script_stops_at_unreadable_jersey full schema now updates done bad rest :
  Forall (fun i => is_Some (insert_columns_values i)) done ->
  insert_columns_values bad = None ->
  generate_sql_script full schema now updates (done ++ bad :: rest)
  = ((script_header full now updates (done ++ bad :: rest)
      ++ updates_section schema updates
      ++ section_banner "NEW PLAYERS" nl
      ++ concat (map (fun i => (insert_writes schema i).1) done)
      ++ ["-- " +:+ Py.str (Insert.display_name bad) +:+ " (GSIS: "
          +:+ Insert.gsis bad +:+ ")" +:+ nl])%list, false).
Proof.
  intros Hdone Hbad. unfold generate_sql_script, inserts_section.
  rewrite (inserts_writes_stop schema done bad rest Hdone Hbad).
  unfold insert_writes at 2. rewrite Hbad.
  destruct (done ++ bad :: rest)%list eqn:Hl; [by destruct done |].
  reflexivity.
Qed.

Lemma script_stops_at_unreadable_jersey_witness :
  let good := {| Insert.gsis := "00-1"; Insert.firstname := "Al";
                 Insert.lastname := "Ba"; Insert.realteamid := 3;
                 Insert.positionid := 9; Insert.jersey_number := PInt 12;
                 Insert.display_name := PStr "Al Ba" |} in
  let bad := {| Insert.gsis := "00-2"; Insert.firstname := "Cy";
                Insert.lastname := "Di"; Insert.realteamid := 3;
                Insert.positionid := 9; Insert.jersey_number := PStr "12A";
                Insert.display_name := PStr "Cy Di" |} in
  (generate_sql_script false "FF" "now" [] [good; bad; good]).2 = false
  /\ last (generate_sql_script false "FF" "now" [] [good; bad; good]).1
     = Some ("-- Cy Di (GSIS: 00-2)" +:+ nl).
Proof.
  intros good bad.
  assert (Hdone : Forall (fun i => is_Some (insert_columns_values i)) [good]).
  { constructor; [| constructor]. eexists. vm_compute. reflexivity. }
  assert (Hbad : insert_columns_values bad = None) by (vm_compute; reflexivity).
  pose proof (script_stops_at_unreadable_jersey false "FF" "now" []
                [good] bad [good] Hdone Hbad) as Hstop.
  change ([good] ++ bad :: [good])%list with [good; bad; good] in Hstop.
  rewrite Hstop. split; [reflexivity |]. vm_compute. reflexivity.
Defined.

(** ** The store connection *)

Lemma get_db_connection_set env u p h s :
  env !! "ORACLE_USER" = Some u -> u <> "" ->
  env !! "ORACLE_PASSWORD" = Some p -> p <> "" ->
  env !! "ORACLE_HOST" = Some h -> h <> "" ->
  env !! "ORACLE_SERVICE" = Some s -> s <> "" ->
  get_db_connection env
  = inr {| user := u; password := p; host := h;
           port := default "1521" (env !! "ORACLE_PORT"); service := s;
           logged := "Connecting to Oracle: " +:+ u +:+ "@" +:+ h +:+ ":"
                     +:+ default "1521" (env !! "ORACLE_PORT") +:+ "/" +:+ s |}.
Proof.
  intros Hu Hu' Hp Hp' Hh Hh' Hs Hs'.
  unfold get_db_connection, required_vars, env_unset.
  apply String.eqb_neq in Hu', Hp', Hh', Hs'.
  cbn [filter list_filter]. rewrite Hu, Hp, Hh, Hs, Hu', Hp', Hh', Hs'.
  reflexivity.
Qed.

Lemma get_db_connection_cases env :
  match get_db_connection env with
  | inl _ => exists var, var ∈ required_vars /\ env_unset env var = true
  | inr conn =>
      env !! "ORACLE_USER" = Some (user conn) /\ user conn <> ""
      /\ env !! "ORACLE_PASSWORD" = Some (password conn) /\ password conn <> ""
      /\ env !! "ORACLE_HOST" = Some (host conn) /\ host conn <> ""
      /\ env !! "ORACLE_SERVICE" = Some (service conn) /\ service conn <> ""
      /\ port conn = default "1521" (env !! "ORACLE_PORT")
      /\ logged conn
         = "Connecting to Oracle: " +:+ user conn +:+ "@" +:+ host conn +:+ ":"
           +:+ port conn +:+ "/" +:+ service conn
  end.
Proof.
  destruct (env !! "ORACLE_USER") as [u |] eqn:Hu;
    [destruct (String.eqb_spec u "") as [-> | Hu'] |].
  2: destruct (env !! "ORACLE_PASSWORD") as [p |] eqn:Hp;
    [destruct (String.eqb_spec p "") as [-> | Hp'] |].
  3: destruct (env !! "ORACLE_HOST") as [h |] eqn:Hh;
    [destruct (String.eqb_spec h "") as [-> | Hh'] |].
  4: destruct (env !! "ORACLE_SERVICE") as [s |] eqn:Hs;
    [destruct (String.eqb_spec s "") as [-> | Hs'] |].
  5: { rewrite (get_db_connection_set env u p h s) by done. simpl.
       split_and!; done. }
  all: assert (Hex : exists var, var ∈ required_vars /\ env_unset env var = true)
    by (unfold required_vars, env_unset;
        first [ exists "ORACLE_USER"; rewrite Hu; split; [set_solver | done]
              | exists "ORACLE_PASSWORD"; rewrite Hp; split; [set_solver | done]
              | exists "ORACLE_HOST"; rewrite Hh; split; [set_solver | done]
              | exists "ORACLE_SERVICE"; rewrite Hs; split; [set_solver | done] ]).
  all: destruct (get_db_connection env) as [msg | conn] eqn:Hc; [done |].
  all: exfalso; unfold get_db_connection in Hc;
    case_bool_decide as Hmiss; simpl in Hc; [| done];
    destruct Hex as (var & Hin & Hunset);
    assert (Hf : var ∈ filter (fun var => env_unset env var = true) required_vars)
      by (by apply list_elem_of_filter);
    rewrite Hmiss in Hf; by apply elem_of_nil in Hf.
Qed.

(** X15.  [get_db_connection] raises exactly when one of ORACLE_USER,
    ORACLE_PASSWORD, ORACLE_HOST and ORACLE_SERVICE is unset or set to the
    empty text.  Otherwise it connects with the values of the environment;
    the port is the one variable with a default, 1521, used when
    ORACLE_PORT is unset. *)
Theorem connection_needs_four_variables env :
  match get_db_connection env with
  | inl _ => exists var, var ∈ required_vars /\ env_unset env var = true
  | inr conn =>
      env !! "ORACLE_USER" = Some (user conn) /\ user conn <> ""
      /\ env !! "ORACLE_PASSWORD" = Some (password conn) /\ password conn <> ""
      /\ env !! "ORACLE_HOST" = Some (host conn) /\ host conn <> ""
      /\ env !! "ORACLE_SERVICE" = Some (service conn) /\ service conn <> ""
      /\ port conn = default "1521" (env !! "ORACLE_PORT")
  end.
Proof.
  pose proof (get_db_connection_cases env) as H.
  destruct (get_db_connection env) as [msg | conn]; [done |].
  destruct H as (? & ? & ? & ? & ? & ? & ? & ? & ? & _). split_and!; done.
Qed.

(** X16.  The password is handed to the driver and to nothing else: the
    line sent to the logger is the same whatever the password is. *)
Theorem password_is_not_logged env conn pw :
  get_db_connection env = inr conn ->
  pw <> "" ->
  exists conn',
    get_db_connection (<["ORACLE_PASSWORD" := pw]> env) = inr conn'
    /\ password conn' = pw
    /\ logged conn' = logged conn
    /\ user conn' = user conn /\ host conn' = host conn
    /\ port conn' = port conn /\ service conn' = service conn.
Proof.
  intros Hc Hpw. pose proof (get_db_connection_cases env) as H.
  rewrite Hc in H.
  destruct H as (Hu & Hu' & Hp & Hp' & Hh & Hh' & Hs & Hs' & Hport & Hlog).
  eexists. split.
  - apply (get_db_connection_set _ (user conn) pw (host conn) (service conn));
      try done; by simplify_map_eq.
  - simpl. rewrite lookup_insert_ne by done. rewrite Hlog, Hport. done.
Qed.

Lemma password_is_not_logged_witness :
  let env : gmap string string :=
    <["ORACLE_USER" := "ff"]> (<["ORACLE_PASSWORD" := "s3cret"]>
    (<["ORACLE_HOST" := "db"]> (<["ORACLE_SERVICE" := "XE"]> ∅))) in
  exists conn',
    get_db_connection (<["ORACLE_PASSWORD" := "other"]> env) = inr conn'
    /\ logged conn' = "Connecting to Oracle: ff@db:1521/XE".
Proof.
  intros env.
  destruct (get_db_connection env) as [msg | conn] eqn:Hc;
    [vm_compute in Hc; discriminate Hc |].
  destruct (password_is_not_logged env conn "other" Hc) as (conn' & Hc' & _ & Hlog & _).
  - discriminate.
  - exists conn'. split; [exact Hc' |]. rewrite Hlog.
    vm_compute in Hc. injection Hc as <-. reflexivity.
Defined.

(** ** Decimal text *)

Lemma int_digits_acc d : forall p b,
  d <> Decimal.Nil \/ b = true ->
  int_digits (Z.pos p) b (NilEmpty.string_of_uint d)
  = Some (Z.pos (Pos.of_uint_acc d p)).
Proof.
  induction d as [| d IH | d IH | d IH | d IH | d IH | d IH | d IH | d IH
                  | d IH | d IH]; intros p b Hd.
  1: { destruct Hd as [Hd | ->]; [done |]. reflexivity. }
  all: cbn [NilEmpty.string_of_uint int_digits digit_of Pos.of_uint_acc];
    change (digit_of _) with (Some 0) || change (digit_of _) with (Some 1)
    || change (digit_of _) with (Some 2) || change (digit_of _) with (Some 3)
    || change (digit_of _) with (Some 4) || change (digit_of _) with (Some 5)
    || change (digit_of _) with (Some 6) || change (digit_of _) with (Some 7)
    || change (digit_of _) with (Some 8) || change (digit_of _) with (Some 9).
  all: cbv beta iota; rewrite <- (IH _ true) by (by right); f_equal; lia.
Qed.

Lemma int_digits_uint d : forall b,
  d <> Decimal.Nil \/ b = true ->
  int_digits 0 b (NilEmpty.string_of_uint d) = Some (Z.of_N (Pos.of_uint d)).
Proof.
  induction d as [| d IH | d IH | d IH | d IH | d IH | d IH | d IH | d IH
                  | d IH | d IH]; intros b Hd.
  1: { destruct Hd as [Hd | ->]; [done |]. reflexivity. }
  1: { cbn [NilEmpty.string_of_uint int_digits Pos.of_uint].
       change (digit_of "0") with (Some 0). cbv beta iota.
       apply IH. by right. }
  all: cbn [NilEmpty.string_of_uint int_digits Pos.of_uint];
    change (digit_of _) with (Some 1) || change (digit_of _) with (Some 2)
    || change (digit_of _) with (Some 3) || change (digit_of _) with (Some 4)
    || change (digit_of _) with (Some 5) || change (digit_of _) with (Some 6)
    || change (digit_of _) with (Some 7) || change (digit_of _) with (Some 8)
    || change (digit_of _) with (Some 9).
  all: cbv beta iota; cbn [Z.of_N];
    rewrite <- (int_digits_acc d _ true) by (by right); reflexivity.
Qed.

Lemma rstrip_digits d :
  Py.rstrip (NilEmpty.string_of_uint d) = NilEmpty.string_of_uint d.
Proof.
  induction d as [| d IH | d IH | d IH | d IH | d IH | d IH | d IH | d IH
                  | d IH | d IH]; [done | ..].
  all: cbn [NilEmpty.string_of_uint Py.rstrip]; rewrite IH;
    by destruct (NilEmpty.string_of_uint d).
Qed.

(** [int] reads the text of an integer back as that integer. *)
Lemma py_int_str z : py_int (PStr (Py.str (PInt z))) = Some z.
Proof.
  unfold py_int, Py.str, Py.strip. destruct z as [| p | p]; [reflexivity | |].
  - cbn [Z.to_int NilZero.string_of_int NilZero.string_of_uint].
    pose proof (Unsigned.to_uint_nonnil p) as Hnil.
    pose proof (Unsigned.of_to p) as Hback.
    pose proof (int_digits_uint (Pos.to_uint p) false (or_introl Hnil)) as Hd.
    pose proof (rstrip_digits (Pos.to_uint p)) as Hr.
    rewrite Hback in Hd.
    destruct (Pos.to_uint p) as [| d | d | d | d | d | d | d | d | d | d];
      [done | ..].
    all: unfold NilZero.string_of_uint; cbn [NilEmpty.string_of_uint] in *;
      change (Py.lstrip (String ?c ?s)) with (String c s);
      rewrite Hr; exact Hd.
  - cbn [Z.to_int NilZero.string_of_int NilZero.string_of_uint].
    pose proof (Unsigned.to_uint_nonnil p) as Hnil.
    pose proof (Unsigned.of_to p) as Hback.
    pose proof (int_digits_uint (Pos.to_uint p) false (or_introl Hnil)) as Hd.
    pose proof (rstrip_digits (Pos.to_uint p)) as Hr.
    rewrite Hback in Hd.
    assert (Hs : Py.rstrip (String "-" (NilEmpty.string_of_uint (Pos.to_uint p)))
                 = String "-" (NilEmpty.string_of_uint (Pos.to_uint p))).
    { cbn [Py.rstrip]. rewrite Hr.
      destruct (Pos.to_uint p); [done | ..]; reflexivity. }
    destruct (Pos.to_uint p) as [| d | d | d | d | d | d | d | d | d | d];
      [done | ..].
    all: unfold NilZero.string_of_uint; cbn [NilEmpty.string_of_uint] in *;
      change (Py.lstrip (String "-" ?s)) with (String "-" s);
      rewrite Hs; cbv beta iota; rewrite Hd; reflexivity.
Qed.

Lemma str_int_nonempty z : Py.str (PInt z) <> "".
Proof.
  intros Hempty. pose proof (py_int_str z) as Hback.
  rewrite Hempty in Hback. discriminate Hback.
Qed.

(** X17.  A jersey cell that holds the decimal text of an integer is always
    written, as that integer - also the text [0], whereas the number [0] is
    falsy and gets no column. *)
Theorem decimal_text_jersey_is_written ins n :
  Insert.jersey_number ins = PStr (Py.str (PInt n)) ->
  exists columns values,
    insert_columns_values ins
    = Some ((columns ++ ["JERSEYNUMBER"])%list,
            (values ++ [Py.str (PInt n)])%list)
    /\ length columns = 6%nat /\ length values = 6%nat.
Proof.
  intros Hj. unfold insert_columns_values, jersey_available.
  rewrite Hj, py_int_str. unfold Py.truthy, Py.isna.
  pose proof (str_int_nonempty n) as Hne. apply String.eqb_neq in Hne.
  rewrite Hne. eexists [_; _; _; _; _; _], [_; _; _; _; _; _].
  split; [reflexivity | done].
Qed.

Lemma decimal_text_jersey_is_written_witness :
  let ins := {| Insert.gsis := "00-1234"; Insert.firstname := "Jane";
                Insert.lastname := "Doe"; Insert.realteamid := 3;
                Insert.positionid := 9; Insert.jersey_number := PStr "0";
                Insert.display_name := PStr "Jane Doe" |} in
  exists columns values,
    insert_columns_values ins = Some (columns, values)
    /\ last columns = Some "JERSEYNUMBER" /\ last values = Some "0".
Proof.
  intros ins.
  destruct (decimal_text_jersey_is_written ins 0) as (columns & values & Hcv & _).
  - reflexivity.
  - eexists _, _. split; [exact Hcv |]. by rewrite !last_snoc.
Defined.

(** ** The error log *)

Lemma how_many_entries l :
  how_many is_entry (map (fun e => "  - " +:+ e +:+ nl) l) = Z.of_nat (length l).
Proof.
  unfold how_many. induction l as [| e l IH]; [done |].
  cbn [map List.filter].
  change (is_entry ("  - " +:+ e +:+ nl)) with true.
  cbn [length]. lia.
Qed.

Lemma write_error_log_entries timestamp now c file writes line :
  write_error_log timestamp now c = Some (file, writes, line) ->
  how_many is_entry writes
  = Z.of_nat (length (errors c)) + Z.of_nat (length (warnings c)).
Proof.
  unfold write_error_log. case_match; [done |]. intros [= _ <- _].
  destruct (errors c) as [| e es] eqn:He, (warnings c) as [| w ws] eqn:Hw.
  all: repeat first
         [ rewrite how_many_app
         | rewrite how_many_entries
         | rewrite how_many_cons;
           match goal with
           | |- context [if is_entry ?x then _ else _] =>
               change (is_entry x) with false
           end ].
  all: change (how_many is_entry []) with 0; cbn [length]; lia.
Qed.

Lemma filter_entries l :
  List.filter is_entry (map (fun m => "  - " +:+ m +:+ nl) l)
  = map (fun m => "  - " +:+ m +:+ nl) l.
Proof.
  induction l as [| m l IH]; [done |].
  cbn [map List.filter]. change (is_entry ("  - " +:+ m +:+ nl)) with true.
  cbv iota. by rewrite IH.
Qed.

Lemma write_error_log_entry_list timestamp now c file writes line :
  write_error_log timestamp now c = Some (file, writes, line) ->
  List.filter is_entry writes
  = map (fun m => "  - " +:+ m +:+ nl) (errors c ++ warnings c).
Proof.
  unfold write_error_log. case_match; [done |]. intros [= _ <- _].
  rewrite map_app.
  destruct (errors c) as [| e es] eqn:He, (warnings c) as [| w ws] eqn:Hw.
  all: repeat first
         [ rewrite List.filter_app
         | rewrite filter_entries
         | progress cbn [List.filter]
         | match goal with
           | |- context [if is_entry ?x then _ else _] =>
               change (is_entry x) with false
           end ].
  all: by rewrite ?app_nil_r.
Qed.

(** X18.  After a run of a fresh reconciler the error log and the summary
    agree.  The log is written exactly when [errors] or [warnings] is not
    zero.  The entries written to it - one [f.write] of the message behind
    two spaces and a dash for each message - are those of [self.errors]
    followed by those of [self.warnings], and the two lists are as long as
    the two counters say. *)
Theorem error_log_matches_counters full nfl_df db_lookup tm pm timestamp now :
  let c := context (reconcile_players full nfl_df db_lookup tm pm ctx0) in
  (write_error_log timestamp now c = None
   <-> Stats.errors (stats c) = 0 /\ Stats.warnings (stats c) = 0)
  /\ Z.of_nat (length (errors c)) = Stats.errors (stats c)
  /\ Z.of_nat (length (warnings c)) = Stats.warnings (stats c)
  /\ (forall file writes line,
        write_error_log timestamp now c = Some (file, writes, line) ->
        List.filter is_entry writes
        = map (fun m => "  - " +:+ m +:+ nl) (errors c ++ warnings c)
        /\ how_many is_entry writes
           = Stats.errors (stats c) + Stats.warnings (stats c)).
Proof.
  intros c. subst c. unfold reconcile_players.
  destruct (reconcile_from_ledger full db_lookup tm pm nfl_df
              {| updates := []; inserts := []; context := ctx0 |})
    as (us & ins & es & ws & _ & _ & He & Hw & _ & _ & _ & H4 & H5 & _).
  simpl in He, Hw, H4, H5. split_and!.
  - unfold write_error_log. rewrite He, Hw, H4, H5.
    destruct es, ws; simpl; split; try done; intros [? ?]; lia.
  - rewrite He, H4. lia.
  - rewrite Hw, H5. lia.
  - intros file writes line Hlog. split.
    + by apply (write_error_log_entry_list timestamp now _ file writes line).
    + rewrite (write_error_log_entries _ _ _ _ _ _ Hlog), He, Hw, H4, H5. lia.
Qed.

Lemma error_log_matches_counters_witness :
  let c := context (reconcile_players true [Sample.jane_xx_yy]
                      Sample.db_lookup Sample.team_map Sample.pos_map ctx0) in
  exists file writes line,
    write_error_log "t" "now" c = Some (file, writes, line)
    /\ List.filter is_entry writes
       = ["  - Unknown team 'XX' for player 00-1234 - Jane Doe" +:+ nl;
          "  - Unknown position 'YY' for player 00-1234 - Jane Doe" +:+ nl].
Proof.
  intros c.
  destruct (write_error_log "t" "now" c) as [[[file writes] line] |] eqn:Hlog;
    [| vm_compute in Hlog; discriminate Hlog].
  exists file, writes, line. split; [reflexivity |].
  destruct (error_log_matches_counters true [Sample.jane_xx_yy]
              Sample.db_lookup Sample.team_map Sample.pos_map "t" "now")
    as (_ & _ & _ & Hentries).
  destruct (Hentries file writes line Hlog) as [Hlist _].
  rewrite Hlist. vm_compute. reflexivity.
Defined.

(** ** Inserts of a run *)

Lemma prepare_player_insert_populated row tm pm c i :
  (_prepare_player_insert row tm pm c).1 = Some i ->
  Insert.firstname i <> "" /\ Insert.lastname i <> ""
  /\ Insert.realteamid i <> 0 /\ Insert.positionid i <> 0
  /\ tm !! norm_code row "latest_team" = Some (Insert.realteamid i)
  /\ pm !! norm_code row "position" = Some (Insert.positionid i)
  /\ Insert.jersey_number i = series_get row "jersey_number" PNone.
Proof.
  unfold _prepare_player_insert, missing_fields, usable_id.
  destruct (String.eqb_spec (text_field row "gsis_id") ""); [done |].
  destruct (String.eqb_spec (text_field row "first_name") ""); [done |].
  destruct (String.eqb_spec (text_field row "last_name") ""); [done |].
  destruct (String.eqb_spec (norm_code row "latest_team") ""); [done |].
  destruct (String.eqb_spec (norm_code row "position") ""); [done |].
  simpl.
  destruct (tm !! norm_code row "latest_team") as [t |]; [| done].
  destruct (Z.eqb_spec t 0); [done |].
  destruct (pm !! norm_code row "position") as [p |]; [| done].
  destruct (Z.eqb_spec p 0); [done |].
  intros [= <-]. simpl. split_and!; done.
Qed.

(** X19.  Every insert of a run is fully populated: the first and the last
    name are not empty, and the team and the position identifier are
    non-zero values of the two mappings. *)
Theorem inserts_of_a_run_are_populated full nfl_df db_lookup tm pm c :
  Forall (fun i =>
            Insert.firstname i <> "" /\ Insert.lastname i <> ""
            /\ Insert.realteamid i <> 0 /\ Insert.positionid i <> 0
            /\ (exists code, tm !! code = Some (Insert.realteamid i))
            /\ (exists code, pm !! code = Some (Insert.positionid i)))
    (inserts (reconcile_players full nfl_df db_lookup tm pm c)).
Proof.
  unfold reconcile_players.
  apply (reconcile_from_Forall (fun _ => True)); [| by apply Forall_nil..].
  intros r row HU HI. split; [by apply Forall_true |].
  unfold reconcile_row.
  destruct (Py.isna _ || _); [done |].
  destruct (db_lookup !! _) as [db |].
  - by destruct (_check_player_updates full row db tm pm (context r)) as [[u |] c1].
  - pose proof (prepare_player_insert_populated row tm pm (context r)) as Hi.
    destruct (_prepare_player_insert row tm pm (context r)) as [[i |] c1];
      simpl in *; [| done].
    apply Forall_app. split; [done |]. apply Forall_singleton.
    destruct (Hi i eq_refl) as (? & ? & ? & ? & ? & ? & _).
    split_and!; by eauto.
Qed.

(** ** From the feed to the script *)

Lemma reconcile_from_inserts_Forall (P : series -> Prop) (Q : Insert.t -> Prop)
    full db_lookup tm pm nfl_df :
  (forall row c i,
     P row -> (_prepare_player_insert row tm pm c).1 = Some i -> Q i) ->
  Forall P nfl_df ->
  forall r, Forall Q (inserts r) ->
  Forall Q (inserts (reconcile_from full db_lookup tm pm r nfl_df)).
Proof.
  intros HQ HP. unfold reconcile_from.
  induction HP as [| row rows Hrow _ IH]; intros r Hr; simpl; [done |].
  apply IH. unfold reconcile_row.
  destruct (Py.isna _ || _); [done |].
  destruct (db_lookup !! _) as [db |].
  - by destruct (_check_player_updates full row db tm pm (context r)) as [[u |] c1].
  - pose proof (HQ row (context r)) as Hi.
    destruct (_prepare_player_insert row tm pm (context r)) as [[i |] c1];
      simpl in *; [| done].
    apply Forall_app. split; [done |]. apply Forall_singleton. by apply Hi.
Qed.

Lemma generate_sql_script_flag full schema now updates inserts :
  Forall (fun i => is_Some (insert_columns_values i)) inserts ->
  (generate_sql_script full schema now updates inserts).2 = true.
Proof.
  intros HF. unfold generate_sql_script, inserts_section.
  destruct inserts as [| i l]; [done |].
  by rewrite (inserts_writes_all schema (i :: l) HF).
Qed.

Lemma insert_columns_values_finite i :
  missing_or_finite (Insert.jersey_number i) = true ->
  is_Some (insert_columns_values i).
Proof.
  intros Hj. unfold insert_columns_values, jersey_available.
  destruct (Insert.jersey_number i) as [| | s | z | negative]; simpl;
    try done; try by eauto.
  destruct (Z.eqb z 0); simpl; by eauto.
Qed.

(** X20.  When every jersey cell of the feed is [None], NaN or a finite
    number - no text and no infinite float - writing the script for the
    output of a run always runs to its end. *)
Theorem script_of_a_numeric_feed_is_completed
    full nfl_df db_lookup tm pm c schema now :
  Forall (fun row =>
            missing_or_finite (series_get row "jersey_number" PNone) = true)
    nfl_df ->
  let r := reconcile_players full nfl_df db_lookup tm pm c in
  (generate_sql_script full schema now (updates r) (inserts r)).2 = true.
Proof.
  intros Hfeed r. apply generate_sql_script_flag. subst r.
  unfold reconcile_players.
  apply (reconcile_from_inserts_Forall
           (fun row =>
              missing_or_finite (series_get row "jersey_number" PNone) = true));
    [| done | by apply Forall_nil].
  intros row c' i Hrow Hi. apply insert_columns_values_finite.
  destruct (prepare_player_insert_populated row tm pm c' i Hi)
    as (_ & _ & _ & _ & _ & _ & ->).
  exact Hrow.
Qed.

Lemma script_of_a_numeric_feed_is_completed_witness :
  let feed := [<["jersey_number" := PInt 12]> Sample.jane_kc_qb;
               <["jersey_number" := PNaN]> Sample.jane_kc_rb] in
  let r := reconcile_players true feed ∅ Sample.team_map Sample.pos_map ctx0 in
  length (inserts r) = 2%nat
  /\ (generate_sql_script true "FF" "now" (updates r) (inserts r)).2 = true.
Proof.
  intros feed r. split; [vm_compute; reflexivity |].
  apply (script_of_a_numeric_feed_is_completed true feed ∅
           Sample.team_map Sample.pos_map ctx0 "FF" "now").
  constructor; [| constructor; [| constructor]].
  - vm_compute. reflexivity.
  - vm_compute. reflexivity.
Defined.

(** The field [inf] of the CSV file is a number and passes the test on the
    jersey cell, and [int] overflows on it: the script of that feed is not
    completed. *)
Example infinite_jersey_stops_the_script :
  let feed := [<["jersey_number" := PInf false]> Sample.jane_kc_qb] in
  let r := reconcile_players false feed ∅ Sample.team_map Sample.pos_map ctx0 in
  (Insert.jersey_number <$> inserts r) = [PInf false]
  /\ (generate_sql_script false "FF" "now" (updates r) (inserts r)).2 = false.
Proof. vm_compute. split; reflexivity. Qed.
